(** * dfxexample: the chunk-extraction driver [doExtraction]

    A shallow embedding of [src/dfxexample.py].  The script reads a video
    frame by frame, attaches the pre-computed face annotation of each frame,
    submits the frame to a DFX collector, and saves the chunk payloads the
    collector hands back.

    Python values are modelled as the interpreter has them: [float] is an
    IEEE 754 binary64 number (Rocq's primitive floats), [int] is [Z], a
    [dict] keyed by strings is a [gmap string _].  The DFX collector, the
    video decoder and the keyboard are outside the script; they are taken as
    parameters (an [Engine], a [Video], a list of key codes) and every call
    the script makes on them is recorded in a trace of [Event]s. *)

From Stdlib Require Import ZArith QArith Floats Lia Ascii.
From stdpp Require Import gmap strings pretty.

Open Scope Z_scope.

(** ** Python primitives used by the script *)

Module Py.

(** The exceptions the script can raise; none of them is caught. *)
Inductive exn : Type :=
| ZeroDivisionError
| KeyError (key : string)
| ValueError
| OverflowError
| SystemExit (code : Z).

Inductive res (A : Type) : Type :=
| Ok (a : A)
| Raise (e : exn).
Arguments Ok {A} a.
Arguments Raise {A} e.

Definition and_then {A B} (r : res A) (k : A -> res B) : res B :=
  match r with
  | Ok a => k a
  | Raise e => Raise e
  end.

(** [a / b] on floats: CPython raises on a zero divisor (of either sign)
    and otherwise returns the IEEE quotient, infinities and NaN included. *)
Definition truediv (a b : float) : res float :=
  if PrimFloat.eqb b 0%float then Raise ZeroDivisionError
  else Ok (a / b)%float.

(** Conversion of an [int] to [float] in mixed arithmetic: correctly
    rounded (half to even); an [int] beyond the range raises. *)
Definition float_of_int (z : Z) : res float :=
  match binary_normalize prec emax z 0 false with
  | S754_infinity _ => Raise OverflowError
  | sf => Ok (SF2Prim sf)
  end.

(** [int(x)] on a float: truncation toward zero. *)
Definition int_of_float (x : float) : res Z :=
  match Prim2SF x with
  | S754_zero _ => Ok 0
  | S754_infinity _ => Raise OverflowError
  | S754_nan => Raise ValueError
  | S754_finite s m e =>
      let a := if 0 <=? e then Zpos m * 2 ^ e else Zpos m / 2 ^ (- e) in
      Ok (if s then - a else a)
  end.

(** [math.ceil(x)] on a float: the least integer not below [x]. *)
Definition ceil (x : float) : res Z :=
  match Prim2SF x with
  | S754_zero _ => Ok 0
  | S754_infinity _ => Raise OverflowError
  | S754_nan => Raise ValueError
  | S754_finite s m e =>
      let v := if s then Zneg m else Zpos m in
      Ok (if 0 <=? e then v * 2 ^ e else - ((- v) / 2 ^ (- e)))
  end.

(** The rational number a finite float stands for. *)
Definition value (x : float) : option Q :=
  match Prim2SF x with
  | S754_zero _ => Some (inject_Z 0)
  | S754_finite s m e =>
      let v := if s then Zneg m else Zpos m in
      Some (if 0 <=? e then inject_Z (v * 2 ^ e)
            else Qmake v (Z.to_pos (2 ^ (- e))))
  | _ => None
  end.

(** [b - a == d], the subtraction being the binary64 one. *)
Definition differ_by (d a b : float) : Prop :=
  PrimFloat.eqb (b - a) d = true.

(** The numbers [a] and [b] stand for differ by exactly [1e9 / fps]. *)
Definition differ_by_exactly (fps a b : float) : Prop :=
  match value a, value b, value fps with
  | Some x, Some y, Some f => Qeq (Qminus y x) (Qdiv (inject_Z 1000000000) f)
  | _, _, _ => False
  end.

Definition not_infinite (sf : spec_float) : Prop :=
  match sf with
  | S754_infinity _ => False
  | _ => True
  end.

(** [str(n)] on an [int]: its decimal numeral. *)
Definition str (n : Z) : string := pretty n.

Fixpoint ends_with_slash (a : string) : bool :=
  match a with
  | EmptyString => false
  | String c EmptyString => Ascii.eqb c "/"%char
  | String _ rest => ends_with_slash rest
  end.

Fixpoint has_slash (a : string) : bool :=
  match a with
  | EmptyString => false
  | String c rest => Ascii.eqb c "/"%char || has_slash rest
  end.

(** [os.path.join(a, b)] for a relative [b]. *)
Definition os_path_join (a b : string) : string :=
  match a with
  | EmptyString => b
  | _ => if ends_with_slash a then a +:+ b else a +:+ "/" +:+ b
  end.

(** [os.path.basename(p)]: what follows the last slash. *)
Fixpoint os_path_basename (p : string) : string :=
  match p with
  | EmptyString => EmptyString
  | String c rest =>
      if has_slash rest then os_path_basename rest
      else if Ascii.eqb c "/"%char then rest else p
  end.

(** ["{}{}{}".format(..)] as used for the chunk file names. *)
Definition chunk_file_name (stem : string) (n : Z) (ext : string) : string :=
  stem +:+ str n +:+ ext.

End Py.

Import Py.

(** ** Data exchanged with libdfx *)

(** Modelled from the spec: libdfx's [CollectorState] enumeration is not
    part of [src/]; the spec lists its values, and the script names
    [CHUNKREADY], [COMPLETED] and [ERROR]. *)
Inductive CollectorState : Type :=
| UNINITIALIZED
| COLLECTING
| CHUNKREADY
| COMPLETED
| ERROR.

Definition CollectorState_eqb (a b : CollectorState) : bool :=
  match a, b with
  | UNINITIALIZED, UNINITIALIZED
  | COLLECTING, COLLECTING
  | CHUNKREADY, CHUNKREADY
  | COMPLETED, COMPLETED
  | ERROR, ERROR => true
  | _, _ => false
  end.

(** The attributes of a chunk payload that [savePayload] reads. *)
Record ChunkPayload : Type := {
  valid : bool;
  start_frame : Z;
  end_frame : Z;
  chunk_number : Z;
  number_chunks : Z;
  first_chunk_start_time_s : float;
  start_time_s : float;
  end_time_s : float;
  duration_s : float;
  payload_data : list Byte.byte;
  metadata : list Byte.byte
}.

(** A JSON number of the face file. *)
Inductive JNum : Type :=
| JInt (z : Z)
| JFloat (x : float).

(** One entry of ["points"] in the face file. *)
Record JsonPoint : Type := {
  jp_x : JNum;
  jp_y : JNum;
  jp_valid : bool;
  jp_estimated : bool;
  jp_quality : JNum
}.

(** One entry of ["frames"] in the face file, with the keys
    [createDFXFace] reads. *)
Record JsonFace : Type := {
  jf_id : string;
  jf_rect_x : JNum;
  jf_rect_y : JNum;
  jf_rect_w : JNum;
  jf_rect_h : JNum;
  jf_poseValid : bool;
  jf_detected : bool;
  jf_points : list (string * JsonPoint)
}.

(** A [dfx] face as [createDFXFace] builds it. *)
Record Face : Type := {
  face_id : string;
  face_rect : JNum * JNum * JNum * JNum;
  face_poseValid : bool;
  face_detected : bool;
  face_posePoints : list (string * JsonPoint)
}.

Inductive ChannelOrder : Type :=
| CHANNEL_ORDER_BGR.

(** The dictionary [props] that [savePayload] dumps as JSON. *)
Record Props : Type := {
  props_valid : bool;
  props_start_frame : Z;
  props_end_frame : Z;
  props_chunk_number : Z;
  props_number_chunks : Z;
  props_first_chunk_start_time_s : float;
  props_start_time_s : float;
  props_end_time_s : float;
  props_duration_s : float
}.

(** The files [savePayload] writes. *)
Inductive FileContent : Type :=
| JsonDump (props : Props)
| Binary (data : list Byte.byte).

Inductive Ctl : Type :=
| Continue
| Break (success : bool).

Set Implicit Arguments.

Section Extraction.

(** The decoded picture is opaque to the script. *)
Variable Image : Type.

Record VideoFrame : Type := {
  vf_image : Image;
  vf_number : Z;
  vf_timestamp_ns : float;
  vf_order : ChannelOrder
}.

(** A [dfx] frame: the video frame, the faces and the markers added. *)
Record Frame : Type := {
  fr_video : VideoFrame;
  fr_faces : list Face;
  fr_markers : list string
}.

(** What [cv2.VideoCapture] gives: two properties and the pictures, each
    with the value of [CAP_PROP_POS_FRAMES] right after it was read.
    After the last picture [read()] returns [None]. *)
Record Video : Type := {
  CAP_PROP_FPS : float;
  CAP_PROP_FRAME_COUNT : float;
  pictures : list (Image * float)
}.

(** The DFX factory and collector, a black box to the script: a state and
    the calls the script makes on it. *)
Record Engine : Type := {
  EState : Type;
  initializeStudyFromFile : string -> bool;
  createCollector : EState;
  getCollectorState : EState -> CollectorState;
  setTargetFPS : float -> EState -> EState;
  setChunkDurationSeconds : Z -> EState -> EState;
  setNumberChunks : Z -> EState -> EState;
  startCollection : EState -> EState;
  defineRegions : Frame -> EState -> EState;
  extractChannels : Frame -> EState -> EState * CollectorState;
  getChunkData : EState -> EState * option ChunkPayload
}.

Inductive Msg : Type :=
| MsgCreatedFactory
| MsgStudyFailed
| MsgCreatedStudy (studyPath : string)
| MsgCollectorFailed
| MsgCreatedCollector
| MsgSettings
| MsgGotChunk (p : ChunkPayload)
| MsgGotEmptyChunk
| MsgCompletedAt (frameNumber : Z)
| MsgFinished
| MsgInterrupted.

(** Every call with an effect outside the script, in program order. *)
Inductive Event : Type :=
| EvPrint (m : Msg)
| EvVideoCapture (videoPath : string)
| EvSetTargetFPS (fps : float)
| EvSetChunkDurationSeconds (s : Z)
| EvSetNumberChunks (n : Z)
| EvMakedirs (dir : string)
| EvStartCollection
| EvRead (picture : option (Image * float))
| EvDefineRegions (f : Frame)
| EvExtractChannels (f : Frame) (result : CollectorState)
| EvGetChunkData (chunkData : option ChunkPayload)
| EvWriteFile (path : string) (content : FileContent)
| EvImshow (fileName : string) (frameNumber total : Z)
| EvWaitKey (key : Z)
| EvRelease
| EvDestroyAllWindows.

Variable E : Engine.

(** What changes during a run: the collector and the keys not yet
    returned by [cv2.waitKey]. *)
Record World : Type := {
  collector : EState E;
  keys : list Z
}.

(** *** The monad: state, trace and exceptions *)

Record Out (A : Type) : Type := mkOut {
  out_events : list Event;
  out_world : World;
  out_res : res A
}.
Arguments mkOut {A} _ _ _.
Arguments out_events {A} _.
Arguments out_world {A} _.
Arguments out_res {A} _.

Definition M (A : Type) : Type := World -> Out A.

Definition ret {A} (a : A) : M A := fun w => mkOut [] w (Ok a).

Definition raise {A} (e : exn) : M A := fun w => mkOut [] w (Raise e).

Definition bind {A B} (m : M A) (k : A -> M B) : M B :=
  fun w =>
    let o := m w in
    match out_res o with
    | Ok a =>
        let o' := k a (out_world o) in
        mkOut (out_events o ++ out_events o') (out_world o') (out_res o')
    | Raise e => mkOut (out_events o) (out_world o) (Raise e)
    end.

Definition emit (ev : Event) : M unit := fun w => mkOut [ev] w (Ok tt).

Definition lift {A} (r : res A) : M A := fun w => mkOut [] w r.

Definition print (m : Msg) : M unit := emit (EvPrint m).

Notation "'let*' x ':=' m 'in' k" := (bind m (fun x => k))
  (at level 10, x name, m at level 100, k at level 200).
Notation "m >> k" := (bind m (fun _ => k))
  (at level 100, k at level 200, right associativity).

(** *** Calls on the collector, the keyboard and the file system *)

Definition configure (f : EState E -> EState E) (ev : Event) : M unit :=
  fun w => mkOut [ev] {| collector := f (collector w); keys := keys w |} (Ok tt).

Definition call_getCollectorState : M CollectorState :=
  fun w => mkOut [] w (Ok (getCollectorState E (collector w))).

Definition call_defineRegions (frame : Frame) : M unit :=
  configure (defineRegions E frame) (EvDefineRegions frame).

Definition call_extractChannels (frame : Frame) : M CollectorState :=
  fun w =>
    let cr := extractChannels E frame (collector w) in
    mkOut [EvExtractChannels frame (snd cr)]
          {| collector := fst cr; keys := keys w |} (Ok (snd cr)).

Definition call_getChunkData : M (option ChunkPayload) :=
  fun w =>
    let cd := getChunkData E (collector w) in
    mkOut [EvGetChunkData (snd cd)]
          {| collector := fst cd; keys := keys w |} (Ok (snd cd)).

(** [cv2.waitKey(1)]: the next key code, [-1] when no key is pressed. *)
Definition waitKey : M Z :=
  fun w =>
    match keys w with
    | [] => mkOut [EvWaitKey (-1)] w (Ok (-1))
    | k :: ks => mkOut [EvWaitKey k] {| collector := collector w; keys := ks |} (Ok k)
    end.

(** *** [savePayload] (lines 39-64) *)

Definition props_of (chunkPayload : ChunkPayload) : Props := {|
  props_valid := valid chunkPayload;
  props_start_frame := start_frame chunkPayload;
  props_end_frame := end_frame chunkPayload;
  props_chunk_number := chunk_number chunkPayload;
  props_number_chunks := number_chunks chunkPayload;
  props_first_chunk_start_time_s := first_chunk_start_time_s chunkPayload;
  props_start_time_s := start_time_s chunkPayload;
  props_end_time_s := end_time_s chunkPayload;
  props_duration_s := duration_s chunkPayload
|}.

Definition savePayload (chunkPayload : ChunkPayload) (output : string) : M unit :=
  let props := props_of chunkPayload in
  emit (EvWriteFile
          (os_path_join output
             (chunk_file_name "properties" (chunk_number chunkPayload) ".json"))
          (JsonDump props)) >>
  emit (EvWriteFile
          (os_path_join output
             (chunk_file_name "payload" (chunk_number chunkPayload) ".bin"))
          (Binary (payload_data chunkPayload))) >>
  emit (EvWriteFile
          (os_path_join output
             (chunk_file_name "metadata" (chunk_number chunkPayload) ".bin"))
          (Binary (metadata chunkPayload))).

(** *** [createDFXFace] (lines 93-107) *)

Definition addPosePoint (face : Face) (pointId : string) (point : JsonPoint) : Face := {|
  face_id := face_id face;
  face_rect := face_rect face;
  face_poseValid := face_poseValid face;
  face_detected := face_detected face;
  face_posePoints := face_posePoints face ++ [(pointId, point)]
|}.

Definition createDFXFace (jsonFace : JsonFace) : Face :=
  let face := {|
    face_id := jf_id jsonFace;
    face_rect := (jf_rect_x jsonFace, jf_rect_y jsonFace,
                  jf_rect_w jsonFace, jf_rect_h jsonFace);
    face_poseValid := jf_poseValid jsonFace;
    face_detected := jf_detected jsonFace;
    face_posePoints := []
  |} in
  fold_left (fun face pp => addPosePoint face (fst pp) (snd pp))
            (jf_points jsonFace) face.

Definition createFrame (videoFrame : VideoFrame) : Frame :=
  {| fr_video := videoFrame; fr_faces := []; fr_markers := [] |}.

Definition addFace (frame : Frame) (face : Face) : Frame :=
  {| fr_video := fr_video frame;
     fr_faces := fr_faces frame ++ [face];
     fr_markers := fr_markers frame |}.

Definition addMarker (frame : Frame) (marker : string) : Frame :=
  {| fr_video := fr_video frame;
     fr_faces := fr_faces frame;
     fr_markers := fr_markers frame ++ [marker] |}.

(** *** The loop of [doExtraction] (lines 144-223) *)

Section Loop.

(** The locals of [doExtraction] the loop reads. *)
Variable videofaces : gmap string JsonFace.
Variable output : option string.
Variable durationOneFrame_ns : float.
Variable videoFileName : string.
Variable videoDuration_frames : Z.

(** [videofaces[key]] *)
Definition videofaces_getitem (key : string) : M JsonFace :=
  match videofaces !! key with
  | Some jsonFace => ret jsonFace
  | None => raise (KeyError key)
  end.

(** Lines 150-156 and again lines 184-190: what is done with the result of
    [getChunkData]. *)
Definition gotChunkData (chunkData : option ChunkPayload) : M unit :=
  match chunkData with
  | Some chunkPayload =>
      (match output with
       | Some dir => savePayload chunkPayload dir
       | None => ret tt
       end) >>
      print (MsgGotChunk chunkPayload)
  | None => print MsgGotEmptyChunk
  end.

(** Lines 147-158: [read()] gave no picture. *)
Definition videoEnded : M bool :=
  emit (EvRead None) >>
  let* chunkData := call_getChunkData in
  gotChunkData chunkData >>
  ret true.

(** Lines 181-195: grab a chunk and check whether the collector is done. *)
Definition grabChunk (frameNumber : Z) (result : CollectorState) : M Ctl :=
  if CollectorState_eqb result CHUNKREADY || CollectorState_eqb result COMPLETED
  then
    let* chunkData := call_getChunkData in
    gotChunkData chunkData >>
    if CollectorState_eqb result COMPLETED
    then print (MsgCompletedAt frameNumber) >> ret (Break true)
    else ret Continue
  else ret Continue.

(** Lines 197-223: every 10th frame the overlay is drawn and shown (a side
    channel, recorded as the one [imshow] call) and the keyboard is polled;
    [ord('q')] is 113. *)
Definition render (frameNumber : Z) : M Ctl :=
  if frameNumber mod 10 =? 0
  then
    emit (EvImshow videoFileName frameNumber videoDuration_frames) >>
    let* key := waitKey in
    if Z.land key 255 =? 113 then ret (Break false) else ret Continue
  else ret Continue.

(** Lines 160-175: the [dfx] frame built for a picture. *)
Definition buildFrame (image : Image) (frameNumber : Z) (timestamp : float)
    (jsonFace : JsonFace) : Frame :=
  let videoFrame := {|
    vf_image := image;
    vf_number := frameNumber;
    vf_timestamp_ns := timestamp;
    vf_order := CHANNEL_ORDER_BGR
  |} in
  let frame := createFrame videoFrame in
  let frame := addFace frame (createDFXFace jsonFace) in
  if frameNumber =? 1000 then addMarker frame "This is the 1000th frame"
  else frame.

(** Lines 160-223: one iteration with a picture. *)
Definition iteration (image : Image) (pos_frames : float) : M Ctl :=
  emit (EvRead (Some (image, pos_frames))) >>
  let* frameNumber := lift (int_of_float pos_frames) in
  let* timestamp :=
    lift (and_then (float_of_int frameNumber)
            (fun n => Ok (n * durationOneFrame_ns)%float)) in
  let* jsonFace := videofaces_getitem (str frameNumber) in
  let frame := buildFrame image frameNumber timestamp jsonFace in
  call_defineRegions frame >>
  let* result := call_extractChannels frame in
  let* ctl := grabChunk frameNumber result in
  match ctl with
  | Break success => ret (Break success)
  | Continue => render frameNumber
  end.

(** [while (True)] over the pictures the decoder still has. *)
Fixpoint loop (pictures : list (Image * float)) : M bool :=
  match pictures with
  | [] => videoEnded
  | (image, pos_frames) :: rest =>
      let* ctl := iteration image pos_frames in
      match ctl with
      | Continue => loop rest
      | Break success => ret success
      end
  end.

End Loop.

(** *** [doExtraction] (lines 67-232) *)

Definition chunkDuration_s : Z := 5.

(** Line 117: [videoDuration_frames / targetFPS], an [int] by a [float]. *)
Definition videoDuration_s_of (videoDuration_frames : Z) (targetFPS : float) : res float :=
  and_then (float_of_int videoDuration_frames) (fun n => truediv n targetFPS).

(** Lines 118-119: [math.ceil(videoDuration_s / chunkDuration_s)], a
    [float] by an [int]. *)
Definition numberChunks_of (videoDuration_s : float) : res Z :=
  and_then (and_then (float_of_int chunkDuration_s)
              (fun d => truediv videoDuration_s d)) ceil.

Definition doExtraction (video : Video) (videofaces : gmap string JsonFace)
    (output_exists : bool)
    (videoPath facePath studyPath : string) (output : option string) : M unit :=
  print MsgCreatedFactory >>
  (if negb (initializeStudyFromFile E studyPath)
   then print MsgStudyFailed >> raise (SystemExit 1)
   else ret tt) >>
  print (MsgCreatedStudy studyPath) >>
  let* state := call_getCollectorState in
  (if CollectorState_eqb state ERROR
   then print MsgCollectorFailed >> raise (SystemExit 1)
   else ret tt) >>
  print MsgCreatedCollector >>
  emit (EvVideoCapture videoPath) >>
  let targetFPS := CAP_PROP_FPS video in
  let* durationOneFrame_ns := lift (truediv 1000000000 targetFPS) in
  let* videoDuration_frames := lift (int_of_float (CAP_PROP_FRAME_COUNT video)) in
  let* videoDuration_s := lift (videoDuration_s_of videoDuration_frames targetFPS) in
  let* numberChunks := lift (numberChunks_of videoDuration_s) in
  configure (setTargetFPS E targetFPS) (EvSetTargetFPS targetFPS) >>
  configure (setChunkDurationSeconds E chunkDuration_s)
            (EvSetChunkDurationSeconds chunkDuration_s) >>
  configure (setNumberChunks E numberChunks) (EvSetNumberChunks numberChunks) >>
  print MsgSettings >>
  let videoFileName := os_path_basename videoPath in
  (match output with
   | Some dir => if negb output_exists then emit (EvMakedirs dir) else ret tt
   | None => ret tt
   end) >>
  configure (startCollection E) EvStartCollection >>
  let* success :=
    loop videofaces output durationOneFrame_ns videoFileName videoDuration_frames
         (pictures video) in
  (if success then print MsgFinished else print MsgInterrupted) >>
  emit EvRelease >>
  emit EvDestroyAllWindows.

(** A run from the fresh collector, with the keys the user will press. *)
Definition run (video : Video) (videofaces : gmap string JsonFace)
    (output_exists : bool) (pressed : list Z)
    (videoPath facePath studyPath : string) (output : option string) : Out unit :=
  doExtraction video videofaces output_exists videoPath facePath studyPath output
    {| collector := createCollector E; keys := pressed |}.

End Extraction.

Arguments EvPrint {Image} m.
Arguments EvVideoCapture {Image} videoPath.
Arguments EvSetTargetFPS {Image} fps.
Arguments EvSetChunkDurationSeconds {Image} s.
Arguments EvSetNumberChunks {Image} n.
Arguments EvMakedirs {Image} dir.
Arguments EvStartCollection {Image}.
Arguments EvRead {Image} picture.
Arguments EvDefineRegions {Image} f.
Arguments EvExtractChannels {Image} f result.
Arguments EvGetChunkData {Image} chunkData.
Arguments EvWriteFile {Image} path content.
Arguments EvImshow {Image} fileName frameNumber total.
Arguments EvWaitKey {Image} key.
Arguments EvRelease {Image}.
Arguments EvDestroyAllWindows {Image}.

(** ** Sample inputs

    A collector that answers from a script, and a few short videos; the
    closed examples further down run the script on them. *)

(** [extractChannels] returns the next scripted state ([COLLECTING] when the
    script is used up), [getChunkData] the next scripted chunk. *)
Definition Scripted (created : CollectorState) (studyOk : bool)
    (states : list CollectorState) (chunks : list (option ChunkPayload)) : Engine nat := {|
  EState := list CollectorState * list (option ChunkPayload);
  initializeStudyFromFile := fun _ => studyOk;
  createCollector := (states, chunks);
  getCollectorState := fun _ => created;
  setTargetFPS := fun _ s => s;
  setChunkDurationSeconds := fun _ s => s;
  setNumberChunks := fun _ s => s;
  startCollection := fun s => s;
  defineRegions := fun _ s => s;
  extractChannels := fun _ s =>
    match fst s with
    | [] => (s, COLLECTING)
    | r :: rs => ((rs, snd s), r)
    end;
  getChunkData := fun s =>
    match snd s with
    | [] => (s, None)
    | c :: cs => ((fst s, cs), c)
    end
|}.

Definition sample_face : JsonFace := {|
  jf_id := "1";
  jf_rect_x := JInt 100;
  jf_rect_y := JInt 80;
  jf_rect_w := JInt 200;
  jf_rect_h := JInt 200;
  jf_poseValid := true;
  jf_detected := true;
  jf_points :=
    [("nose", {| jp_x := JInt 200; jp_y := JInt 180; jp_valid := true;
                 jp_estimated := false; jp_quality := JInt 1 |})]
|}.

Definition sample_chunk : ChunkPayload := {|
  valid := true;
  start_frame := 1;
  end_frame := 3;
  chunk_number := 0;
  number_chunks := 1;
  first_chunk_start_time_s := 0;
  start_time_s := 0;
  end_time_s := 0.125;
  duration_s := 0.125;
  payload_data := [Byte.x00; Byte.x01];
  metadata := [Byte.x02]
|}.

(** Faces for the frame numbers [ns]. *)
Definition faces_for (ns : list Z) : gmap string JsonFace :=
  list_to_map (map (fun n => (str n, sample_face)) ns).

(** A video whose pictures report the positions [ps]. *)
Definition video_of (fps : float) (ps : list float) : Video nat := {|
  CAP_PROP_FPS := fps;
  CAP_PROP_FRAME_COUNT := SF2Prim (binary_normalize prec emax (Z.of_nat (length ps)) 0 false);
  pictures := map (fun p => (0%nat, p)) ps
|}.

(** The frame the script builds for picture 0 of these videos. *)
Definition sample_frame (fps : float) (frameNumber : Z) (n : float) : Frame nat :=
  buildFrame 0%nat frameNumber (n * (1000000000 / fps))%float sample_face.

(** One picture; the collector answers [ERROR]. *)
Definition error_run : Out (Scripted COLLECTING true [ERROR] []) unit :=
  run (Scripted COLLECTING true [ERROR] []) (video_of 30 [1%float]) (faces_for [1])
      false [] "clip.mp4" "faces.json" "study.dat" None.

(** Two pictures, and no face for the second. *)
Definition missing_run : Out (Scripted COLLECTING true [] []) unit :=
  run (Scripted COLLECTING true [] []) (video_of 30 [1%float; 2%float]) (faces_for [1])
      false [] "clip.mp4" "faces.json" "study.dat" (Some "out").

(** One picture, numbered 1, while [q] is held down. *)
Definition unpolled_run : Out (Scripted COLLECTING true [] []) unit :=
  run (Scripted COLLECTING true [] []) (video_of 30 [1%float]) (faces_for [1])
      false [113] "clip.mp4" "faces.json" "study.dat" None.

(** Pictures 10 and 11, and [q] pressed at the first poll. *)
Definition q_run : Out (Scripted COLLECTING true [] []) unit :=
  run (Scripted COLLECTING true [] []) (video_of 30 [10%float; 11%float])
      (faces_for [10; 11]) false [113] "clip.mp4" "faces.json" "study.dat" None.

(** Three pictures at 30 frames per second; a chunk is ready at the second
    and another is left at the end of the video. *)
Definition chunk_run
  : Out (Scripted COLLECTING true [COLLECTING; CHUNKREADY; COLLECTING]
                  [Some sample_chunk; Some sample_chunk]) unit :=
  run (Scripted COLLECTING true [COLLECTING; CHUNKREADY; COLLECTING]
                [Some sample_chunk; Some sample_chunk])
      (video_of 30 [1%float; 2%float; 3%float]) (faces_for [1; 2; 3])
      false [] "clip.mp4" "faces.json" "study.dat" (Some "out").

(** One picture, numbered 1000. *)
Definition marker_run : Out (Scripted COLLECTING true [] []) unit :=
  run (Scripted COLLECTING true [] []) (video_of 30 [1000%float]) (faces_for [1000])
      false [] "clip.mp4" "faces.json" "study.dat" None.

(** A video that failed to open: no frame rate, no picture. *)
Definition closed_run : Out (Scripted COLLECTING true [] []) unit :=
  run (Scripted COLLECTING true [] []) (video_of 0 []) (faces_for [])
      false [] "clip.mp4" "faces.json" "study.dat" None.

(** ** Vocabulary for traces *)

Section Vocabulary.

Variable Image : Type.
Variable E : Engine Image.

(** An outcome with some events put in front. *)
Definition prepend {A} (evs : list (Event Image)) (o : Out E A) : Out E A :=
  mkOut (evs ++ out_events o) (out_world o) (out_res o).

(** The three files of a chunk, as [savePayload] writes them. *)
Definition savePayload_events (p : ChunkPayload) (dir : string) : list (Event Image) :=
  [EvWriteFile (os_path_join dir (chunk_file_name "properties" (chunk_number p) ".json"))
               (JsonDump (props_of p));
   EvWriteFile (os_path_join dir (chunk_file_name "payload" (chunk_number p) ".bin"))
               (Binary (payload_data p));
   EvWriteFile (os_path_join dir (chunk_file_name "metadata" (chunk_number p) ".bin"))
               (Binary (metadata p))].

(** What follows a [getChunkData] call: the chunk is saved when there is
    one and an output folder was given, and a line is printed. *)
Definition gotChunkData_events (output : option string) (chunkData : option ChunkPayload)
    : list (Event Image) :=
  match chunkData with
  | Some p =>
      match output with
      | Some dir => savePayload_events p dir
      | None => []
      end ++ [EvPrint (MsgGotChunk p)]
  | None => [EvPrint MsgGotEmptyChunk]
  end.

(** The collector after [defineRegions] and [extractChannels] on a frame. *)
Definition submitted (frame : Frame Image) (w : World E) : EState E * CollectorState :=
  extractChannels E frame (defineRegions E frame (collector w)).

(** What the script does after the loop (lines 225-232). *)
Definition closing (success : bool) : list (Event Image) :=
  [EvPrint (if success then MsgFinished else MsgInterrupted);
   EvRelease; EvDestroyAllWindows].

(** The rest of an iteration once the frame has been submitted
    (lines 181-223). *)
Definition after_submit (output : option string) (videoFileName : string)
    (videoDuration_frames frameNumber : Z) (result : CollectorState) : M E Ctl :=
  bind (grabChunk output frameNumber result) (fun ctl =>
    match ctl with
    | Break success => ret (Break success)
    | Continue => render videoFileName videoDuration_frames frameNumber
    end).

(** What lines 111-119 compute: [durationOneFrame_ns],
    [videoDuration_frames] and [numberChunks]. *)
Definition settings (video : Video Image) : res (float * Z * Z) :=
  and_then (truediv 1000000000 (CAP_PROP_FPS video)) (fun durationOneFrame_ns =>
  and_then (int_of_float (CAP_PROP_FRAME_COUNT video)) (fun videoDuration_frames =>
  and_then (videoDuration_s_of videoDuration_frames (CAP_PROP_FPS video)) (fun videoDuration_s =>
  and_then (numberChunks_of videoDuration_s) (fun numberChunks =>
  Ok (durationOneFrame_ns, videoDuration_frames, numberChunks))))).

(** The events up to and including [cv2.VideoCapture]. *)
Definition opening (videoPath studyPath : string) : list (Event Image) :=
  [EvPrint MsgCreatedFactory; EvPrint (MsgCreatedStudy studyPath);
   EvPrint MsgCreatedCollector; EvVideoCapture videoPath].

(** The events from there to [startCollection]. *)
Definition configuration (targetFPS : float) (numberChunks : Z)
    (output : option string) (output_exists : bool) : list (Event Image) :=
  [EvSetTargetFPS targetFPS; EvSetChunkDurationSeconds chunkDuration_s;
   EvSetNumberChunks numberChunks; EvPrint MsgSettings]
  ++ match output with
     | Some dir => if negb output_exists then [EvMakedirs dir] else []
     | None => []
     end
  ++ [EvStartCollection].

(** The world when the loop starts. *)
Definition configured (targetFPS : float) (numberChunks : Z) (pressed : list Z) : World E :=
  {| collector :=
       startCollection E
         (setNumberChunks E numberChunks
            (setChunkDurationSeconds E chunkDuration_s
               (setTargetFPS E targetFPS (createCollector E))));
     keys := pressed |}.

(** A run that reached the loop: the events before it, the loop's, and the
    closing ones when the loop returned. *)
Definition around_loop (before : list (Event Image)) (lo : Out E bool) : Out E unit :=
  match out_res lo with
  | Ok success =>
      mkOut (before ++ out_events lo ++ closing success) (out_world lo) (Ok tt)
  | Raise e => mkOut (before ++ out_events lo) (out_world lo) (Raise e)
  end.

(** The whole trace of the loop and of what follows it: the closing events
    when the loop returned, nothing more when an exception left it. *)
Definition full_trace (lo : Out E bool) : list (Event Image) :=
  out_events lo
  ++ match out_res lo with
     | Ok success => closing success
     | Raise _ => []
     end.

(** The exception that ended a computation, if any. *)
Definition raised {A} (o : Out E A) : option exn :=
  match out_res o with
  | Ok _ => None
  | Raise e => Some e
  end.

(** What follows a submit the script does not act on, for frame
    [frameNumber]: the next [read()], or on every 10th frame the overlay and
    the key test first, which either ends the run as interrupted or leads to
    the next [read()]. *)
Definition goes_on (frameNumber : Z) (post : list (Event Image)) : Prop :=
  match post with
  | EvRead _ :: _ => frameNumber mod 10 <> 0
  | EvImshow _ _ _ :: EvWaitKey key :: rest =>
      frameNumber mod 10 = 0
      /\ if Z.land key 255 =? 113 then rest = closing false
         else exists p tl, rest = EvRead p :: tl
  | _ => False
  end.

(** The number of [cv2.waitKey] calls before the next [read()]. *)
Fixpoint key_checks (post : list (Event Image)) : nat :=
  match post with
  | [] => 0
  | EvRead _ :: _ => 0
  | EvWaitKey _ :: rest => S (key_checks rest)
  | _ :: rest => key_checks rest
  end.

(** The calls that touch the file system. *)
Definition file_event (ev : Event Image) : bool :=
  match ev with
  | EvMakedirs _ | EvWriteFile _ _ => true
  | _ => false
  end.

(** A trace without them. *)
Definition without_files (t : list (Event Image)) : list (Event Image) :=
  List.filter (fun ev => negb (file_event ev)) t.

(** C1 as the spec states it: after a submit that returned [ERROR] nothing
    more is read or retrieved, and the run is reported as interrupted or
    failed. *)
Definition stops_on_error (t : list (Event Image)) : Prop :=
  forall pre frame post,
    t = pre ++ EvExtractChannels frame ERROR :: post ->
    (forall p, ~ In (EvRead p) post)
    /\ (forall c, ~ In (EvGetChunkData c) post)
    /\ In (EvPrint MsgInterrupted) post.

(** C6 as the spec states it: a capture that was opened is released. *)
Definition released_if_opened (t : list (Event Image)) : Prop :=
  (exists videoPath, In (EvVideoCapture videoPath) t) -> In EvRelease t.

(** C7 as the spec states it: the keyboard is polled once in every
    iteration. *)
Definition polled_every_iteration (t : list (Event Image)) : Prop :=
  forall pre picture post,
    t = pre ++ EvRead (Some picture) :: post -> key_checks post = 1%nat.

(** The frames submitted to the collector, in order. *)
Fixpoint submitted_frames (t : list (Event Image)) : list (Frame Image) :=
  match t with
  | [] => []
  | EvExtractChannels f _ :: rest => f :: submitted_frames rest
  | _ :: rest => submitted_frames rest
  end.

(** C4 as the spec states it: the timestamps of two frames submitted one
    after the other, with consecutive numbers, are [spaced]. *)
Definition evenly_spaced (spaced : float -> float -> Prop) (t : list (Event Image)) : Prop :=
  forall (i : nat) f1 f2,
    submitted_frames t !! i = Some f1 ->
    submitted_frames t !! S i = Some f2 ->
    vf_number (fr_video f2) = vf_number (fr_video f1) + 1 ->
    spaced (vf_timestamp_ns (fr_video f1)) (vf_timestamp_ns (fr_video f2)).

(** Two outcomes that differ only in file-system calls. *)
Definition same_but_files {A} (a b : Out E A) : Prop :=
  without_files (out_events a) = out_events b
  /\ out_world a = out_world b
  /\ out_res a = out_res b.

(** The calls made before the loop starts. *)
Definition startup (ev : Event Image) : Prop :=
  match ev with
  | EvPrint _ | EvVideoCapture _ | EvSetTargetFPS _ | EvSetChunkDurationSeconds _
  | EvSetNumberChunks _ | EvMakedirs _ | EvStartCollection => True
  | _ => False
  end.

(** [each_event P t]: every event of [t], with what follows it, has [P]. *)
Definition each_event (P : Event Image -> list (Event Image) -> Prop)
    (t : list (Event Image)) : Prop :=
  forall pre ev post, t = pre ++ ev :: post -> P ev post.

End Vocabulary.

Arguments startup {Image} ev.
Arguments stops_on_error {Image} t.
Arguments released_if_opened {Image} t.
Arguments polled_every_iteration {Image} t.
Arguments submitted_frames {Image} t.
Arguments evenly_spaced {Image} spaced t.
Arguments file_event {Image} ev.
Arguments without_files {Image} t.
Arguments goes_on {Image} frameNumber post.
Arguments key_checks {Image} post.
Arguments closing {Image} success.
Arguments opening {Image} videoPath studyPath.
Arguments configuration {Image} targetFPS numberChunks output output_exists.
Arguments savePayload_events {Image} p dir.
Arguments gotChunkData_events {Image} output chunkData.

Unset Implicit Arguments.

(** ** Vocabulary for the further properties *)

(** The overlay shown before the next [read()], if any: the file name, the
    frame number and the total of its text. *)
Fixpoint overlay_shown {Image} (post : list (Event Image)) : option (string * Z * Z) :=
  match post with
  | [] => None
  | EvRead _ :: _ => None
  | EvImshow fileName frameNumber total :: _ => Some (fileName, frameNumber, total)
  | _ :: rest => overlay_shown rest
  end.

(** The files written during a run, in order: path and content. *)
Fixpoint written {Image} (t : list (Event Image)) : list (string * FileContent) :=
  match t with
  | [] => []
  | EvWriteFile path content :: rest => (path, content) :: written rest
  | _ :: rest => written rest
  end.

(** The chunks [getChunkData] returned during a run, in order. *)
Fixpoint retrieved {Image} (t : list (Event Image)) : list ChunkPayload :=
  match t with
  | [] => []
  | EvGetChunkData (Some chunkPayload) :: rest => chunkPayload :: retrieved rest
  | _ :: rest => retrieved rest
  end.

(** The three files of a chunk (lines 51-64). *)
Definition chunk_files (output : string) (chunkPayload : ChunkPayload)
    : list (string * FileContent) :=
  [(os_path_join output
      (chunk_file_name "properties" (chunk_number chunkPayload) ".json"),
    JsonDump (props_of chunkPayload));
   (os_path_join output
      (chunk_file_name "payload" (chunk_number chunkPayload) ".bin"),
    Binary (payload_data chunkPayload));
   (os_path_join output
      (chunk_file_name "metadata" (chunk_number chunkPayload) ".bin"),
    Binary (metadata chunkPayload))].

(** The calls that open the capture, configure the collector, create the
    output folder and start the collection. *)
Definition setup_call {Image} (ev : Event Image) : Prop :=
  match ev with
  | EvVideoCapture _ | EvSetTargetFPS _ | EvSetChunkDurationSeconds _
  | EvSetNumberChunks _ | EvMakedirs _ | EvStartCollection => True
  | _ => False
  end.

(** A mantissa and an exponent that stand for the integer [k]. *)
Definition stands_for (k m : positive) (e : Z) : Prop :=
  if 0 <=? e then Zpos k = Zpos m * 2 ^ e else Zpos k * 2 ^ (- e) = Zpos m.

(** *** More sample inputs *)

(** A collector that never completes: every submit answers [COLLECTING]
    and there is never a chunk. *)
Definition Collecting : Engine nat := {|
  EState := unit;
  initializeStudyFromFile := fun _ => true;
  createCollector := tt;
  getCollectorState := fun _ => COLLECTING;
  setTargetFPS := fun _ s => s;
  setChunkDurationSeconds := fun _ s => s;
  setNumberChunks := fun _ s => s;
  startCollection := fun s => s;
  defineRegions := fun _ s => s;
  extractChannels := fun _ s => (s, COLLECTING);
  getChunkData := fun s => (s, None)
|}.

(** The study file cannot be read. *)
Definition study_failed_run : Out (Scripted COLLECTING false [] []) unit :=
  run (Scripted COLLECTING false [] []) (video_of 30 [1%float]) (faces_for [1])
      false [] "clip.mp4" "faces.json" "study.dat" None.

(** Two pictures and a collector that never completes. *)
Definition steady_run : Out Collecting unit :=
  run Collecting (video_of 30 [1%float; 2%float]) (faces_for [1; 2])
      false [] "clip.mp4" "faces.json" "study.dat" None.

(** A capture that reports no frame rate at all. *)
Definition nan_run : Out (Scripted COLLECTING true [] []) unit :=
  run (Scripted COLLECTING true [] []) (video_of nan []) (faces_for [])
      false [] "clip.mp4" "faces.json" "study.dat" None.

(** A capture without pictures, at 30 frames per second. *)
Definition empty_run : Out (Scripted COLLECTING true [] []) unit :=
  run (Scripted COLLECTING true [] []) (video_of 30 []) (faces_for [])
      false [] "clip.mp4" "faces.json" "study.dat" (Some "out").

(** A second chunk, after [sample_chunk]. *)
Definition next_chunk : ChunkPayload := {|
  valid := true;
  start_frame := 4;
  end_frame := 6;
  chunk_number := 1;
  number_chunks := 1;
  first_chunk_start_time_s := 0;
  start_time_s := 0.125;
  end_time_s := 0.25;
  duration_s := 0.125;
  payload_data := [Byte.x03];
  metadata := [Byte.x04]
|}.

(** ** Rounding to binary64

    The vocabulary for following a number [m * 2 ^ e] through
    [binary_round_aux]: the shift that leaves 53 bits, the rounding to
    nearest (ties to even) and the second shift after a carry. *)

Abbreviation dg m := (Zpos (digits2_pos m)).
Abbreviation fexp64 := (fexp prec emax).

(** [located D rem r s]: the round bit [r] and the sticky bit [s] place the
    remainder [rem] of a division by [D] below, at or above the half. *)
Definition located (D rem : Z) (r s : bool) : Prop :=
  0 <= rem < D /\
  match r, s with
  | false, false => rem = 0
  | false, true => 0 < 2 * rem < D
  | true, false => 2 * rem = D
  | true, true => D < 2 * rem
  end.

(** [shifted m D mrs]: the record [mrs] holds the quotient of [m] by [D]
    and the two bits of the remainder. *)
Definition shifted (m D : Z) (mrs : shr_record) : Prop :=
  0 <= shr_m mrs
  /\ exists rem, m = shr_m mrs * D + rem /\ located D rem (shr_r mrs) (shr_s mrs).

(** The mantissa after rounding to nearest, ties to even. *)
Definition rne (mrs : shr_record) : Z :=
  round_nearest_even (shr_m mrs) (loc_of_shr_record mrs).

(** The second shift: a mantissa that rounding took to [2 ^ 53] is halved. *)
Definition carry (q E : Z) : Z * Z :=
  if q =? 2 ^ 53 then (2 ^ 52, E + 1) else (q, E).

(** The float [binary_round_aux] returns for a mantissa and an exponent. *)
Definition outcome (sx : bool) (qE : Z * Z) : spec_float :=
  match fst qE with
  | 0 => S754_zero sx
  | Zpos mq =>
      if snd qE <=? 971 then S754_finite sx mq (snd qE) else S754_infinity sx
  | Zneg _ => S754_nan
  end.

(** [m1 * 2 ^ e1 <= m2 * 2 ^ e2], over the integers. *)
Definition value_le (m1 e1 m2 e2 : Z) : Prop :=
  m1 * 2 ^ (e1 - Z.min e1 e2) <= m2 * 2 ^ (e2 - Z.min e1 e2).

(** [rounds m e qE]: rounding [m * 2 ^ e] gives the mantissa and the
    exponent [qE]. *)
Definition rounds (m : positive) (e : Z) (qE : Z * Z) : Prop :=
  exists mrs,
    shifted (Zpos m) (2 ^ (fexp64 (dg m + e) - e)) mrs
    /\ qE = carry (rne mrs) (fexp64 (dg m + e)).

(** A canonical result has 53 bits, or fewer at the least exponent. *)
Definition canonical (qE : Z * Z) : Prop :=
  0 <= fst qE < 2 ^ 53 /\ -1074 <= snd qE
  /\ (2 ^ 52 <= fst qE \/ snd qE = -1074).

(** The order of two canonical results. *)
Definition result_le (qE1 qE2 : Z * Z) : Prop :=
  fst qE1 = 0
  \/ (0 < fst qE2
      /\ (snd qE1 < snd qE2 \/ (snd qE1 = snd qE2 /\ fst qE1 <= fst qE2))).

(** [int_rounds a qE]: the [int] [a] converts to the mantissa and the
    exponent [qE]. *)
Definition int_rounds (a : positive) (qE : Z * Z) : Prop :=
  let '(mz, ez) := shl_align a 0 (fexp64 (dg a + 0)) in rounds mz ez qE.

(** ** Python's float arithmetic *)

Section Floats.

Lemma digits2_pos_size p : digits2_pos p = Pos.size p.
Proof. induction p; cbn; congruence. Qed.

Lemma digits2_pos_iter_xO m d :
  digits2_pos (Pos.iter xO m d) = (digits2_pos m + d)%positive.
Proof.
  induction d using Pos.peano_ind.
  - cbn. lia.
  - rewrite Pos.iter_succ. cbn [digits2_pos]. rewrite IHd. lia.
Qed.

Lemma Zpos_iter_xO m d : Zpos (Pos.iter xO m d) = Zpos m * 2 ^ Zpos d.
Proof.
  induction d using Pos.peano_ind.
  - cbn. lia.
  - rewrite Pos.iter_succ, Pos2Z.inj_xO, IHd, Pos2Z.inj_succ, Z.pow_succ_r by lia. lia.
Qed.

Lemma iter_pos_iter {A} (f : A -> A) p x : SpecFloat.iter_pos f p x = Pos.iter f x p.
Proof.
  revert x. induction p; intros x; cbn [SpecFloat.iter_pos Pos.iter].
  - rewrite !IHp, !Pos.iter_swap. reflexivity.
  - rewrite !IHp. reflexivity.
  - reflexivity.
Qed.

Lemma shr_exact m d :
  SpecFloat.iter_pos shr_1 d (Build_shr_record (Zpos (Pos.iter xO m d)) false false)
  = Build_shr_record (Zpos m) false false.
Proof.
  rewrite iter_pos_iter.
  induction d using Pos.peano_ind.
  - reflexivity.
  - rewrite Pos.iter_succ_r, Pos.iter_succ. cbn [shr_1 orb]. exact IHd.
Qed.


Lemma canonical_digits m e :
  bounded prec emax m e = true ->
  fexp prec emax (Zpos (digits2_pos m) + e) = e /\ e <= 971 /\ Zpos (digits2_pos m) <= 53.
Proof.
  unfold bounded, canonical_mantissa. intros H.
  apply andb_prop in H as [H1 H2].
  apply Z.eqb_eq in H1. apply Z.leb_le in H2.
  split; [exact H1|]. split; [exact H2|].
  revert H1. unfold fexp, SpecFloat.emin, prec, emax. lia.
Qed.

(** Rounding a canonical mantissa changes nothing. *)
Lemma binary_round_aux_canonical sx m e :
  bounded prec emax m e = true ->
  binary_round_aux prec emax sx (Zpos m) e loc_Exact = S754_finite sx m e.
Proof.
  intros Hb. destruct (canonical_digits m e Hb) as (Hc & He & _).
  unfold binary_round_aux, shr_fexp. cbn [Zdigits2 shr_record_of_loc].
  rewrite Hc, Z.sub_diag. cbn [shr shr_m loc_of_shr_record round_nearest_even Zdigits2].
  rewrite Hc, Z.sub_diag. cbn [shr shr_m].
  replace (e <=? emax - prec) with true; [reflexivity|].
  symmetry. apply Z.leb_le. exact He.
Qed.

(** A canonical mantissa shifted left by its positive exponent rounds
    back to itself. *)
Lemma binary_round_aux_shifted sx m p :
  bounded prec emax m (Zpos p) = true ->
  binary_round_aux prec emax sx (Zpos (Pos.iter xO m p)) 0 loc_Exact
  = S754_finite sx m (Zpos p).
Proof.
  intros Hb. destruct (canonical_digits m (Zpos p) Hb) as (Hc & He & _).
  rewrite <- (binary_round_aux_canonical sx m (Zpos p) Hb).
  unfold binary_round_aux at 1. unfold shr_fexp at 1.
  cbn [Zdigits2 shr_record_of_loc].
  rewrite digits2_pos_iter_xO, Z.add_0_r, Pos2Z.inj_add, Hc, Z.sub_0_r.
  cbn [shr]. rewrite shr_exact. cbn [shr_m loc_of_shr_record round_nearest_even Z.add].
  unfold binary_round_aux. unfold shr_fexp at 2. cbn [Zdigits2 shr_record_of_loc].
  rewrite Hc, Z.sub_diag. cbn [shr shr_m loc_of_shr_record round_nearest_even].
  reflexivity.
Qed.

(** A positive integer of at most 53 bits converts without overflow. *)
Lemma binary_round_small sx k :
  Zpos (digits2_pos k) <= 53 ->
  not_infinite (binary_round prec emax sx k 0).
Proof.
  intros Hd. unfold binary_round.
  assert (Hf : fexp prec emax (Zpos (digits2_pos k) + 0) = Zpos (digits2_pos k) - 53)
    by (unfold fexp, SpecFloat.emin, prec, emax; lia).
  rewrite Hf. unfold shl_align. rewrite Z.sub_0_r.
  destruct (Z.pos (digits2_pos k) - 53) as [|d|d] eqn:Hshift; [|lia|].
  - rewrite binary_round_aux_canonical; [exact I|].
    unfold bounded, canonical_mantissa. rewrite Hf. reflexivity.
  - rewrite binary_round_aux_canonical; [exact I|].
    unfold bounded, canonical_mantissa. rewrite digits2_pos_iter_xO, Pos2Z.inj_add.
    apply andb_true_intro. split.
    + apply Z.eqb_eq. unfold fexp, SpecFloat.emin, prec, emax. lia.
    + apply Z.leb_le. unfold prec, emax. lia.
Qed.

Lemma digits2_pos_le k m : (k <= m)%positive -> (digits2_pos k <= digits2_pos m)%positive.
Proof.
  rewrite !digits2_pos_size. intros Hkm.
  pose proof (Pos.size_le k) as Hk. pose proof (Pos.size_gt m) as Hm.
  destruct (Pos.leb_spec (Pos.size k) (Pos.size m)) as [H|H]; [exact H|exfalso].
  apply Pos2Z.pos_le_pos in Hk. apply Pos2Z.pos_lt_pos in Hm.
  rewrite Pos2Z.inj_pow in Hk, Hm. rewrite (Pos2Z.inj_xO k) in Hk.
  assert (H2 : 2 ^ (Zpos (Pos.size m) + 1) <= 2 ^ Zpos (Pos.size k))
    by (apply Z.pow_le_mono_r; lia).
  rewrite Z.pow_add_r, Z.pow_1_r in H2 by lia. lia.
Qed.

(** The [int] got by truncating a [float] converts back without overflow:
    the timestamp product of line 163 never raises. *)
Lemma float_of_int_of_float x n :
  int_of_float x = Ok n -> exists f, float_of_int n = Ok f.
Proof.
  unfold int_of_float, float_of_int.
  pose proof (Prim2SF_valid x) as Hv.
  destruct (Prim2SF x) as [s|s| |s m e]; try discriminate.
  - intros [= <-]. cbn. eauto.
  - intros [= <-]. cbn [valid_binary] in Hv.
    destruct (canonical_digits m e Hv) as (Hc & He & Hd).
    enough (Hfin : forall (sx : bool) (z : Z), z = (if 0 <=? e then Z.pos m * 2 ^ e else Z.pos m `div` 2 ^ (- e)) ->
              not_infinite (binary_normalize prec emax (if sx then - z else z) 0 false)).
    { specialize (Hfin s _ eq_refl).
      destruct (binary_normalize _ _ _ _ _); [eauto| destruct Hfin |eauto|eauto]. }
    intros sx z Hz.
    assert (Hcase : z = 0 \/ exists k, z = Zpos k /\
               (Zpos (digits2_pos k) <= 53 \/ exists p, e = Zpos p /\ k = Pos.iter xO m p)).
    { destruct (0 <=? e) eqn:Hsign.
      - apply Z.leb_le in Hsign. right. destruct e as [|p|p]; [| |lia].
        + exists m. split; [lia|]. left. exact Hd.
        + exists (Pos.iter xO m p). split; [rewrite Zpos_iter_xO; exact Hz|]. right. eauto.
      - apply Z.leb_gt in Hsign.
        assert (0 < 2 ^ (- e)) by (apply Z.pow_pos_nonneg; lia).
        assert (0 <= z <= Zpos m).
        { subst z. split; [apply Z.div_pos; lia|].
          apply Z.div_le_upper_bound; [lia|]. nia. }
        destruct z as [|k|k]; [left; reflexivity| |lia].
        right. exists k. split; [reflexivity|]. left.
        pose proof (digits2_pos_le k m). lia. }
    destruct Hcase as [->|(k & -> & Hk)].
    + destruct sx; exact I.
    + assert (Hr : forall b, not_infinite (binary_round prec emax b k 0)).
      { intros b. destruct Hk as [Hk|(p & -> & ->)].
        - apply binary_round_small, Hk.
        - unfold binary_round.
          rewrite digits2_pos_iter_xO, Z.add_0_r, Pos2Z.inj_add, Hc.
          unfold shl_align. rewrite Z.sub_0_r.
          rewrite binary_round_aux_shifted by exact Hv. exact I. }
      destruct sx; cbn [Z.opp binary_normalize]; apply Hr.
Qed.

(** [math.ceil] returns the least integer not below its argument. *)
Lemma ceil_spec x c :
  ceil x = Ok c ->
  exists v, value x = Some v /\ (inject_Z c - 1 < v)%Q /\ (v <= inject_Z c)%Q.
Proof.
  unfold ceil, value.
  destruct (Prim2SF x) as [s|s| |s m e]; try discriminate; intros [= <-].
  - exists (inject_Z 0). repeat split; discriminate.
  - eexists. split; [reflexivity|].
    set (v := if s then Z.neg m else Z.pos m).
    destruct (0 <=? e) eqn:He.
    + unfold Qlt, Qle, Qminus, Qplus, Qopp, inject_Z. cbn [Qnum Qden]. lia.
    + apply Z.leb_gt in He.
      assert (Hq : 0 < 2 ^ (- e)) by (apply Z.pow_pos_nonneg; lia).
      unfold Qlt, Qle, Qminus, Qplus, Qopp, inject_Z. cbn [Qnum Qden].
      rewrite Z2Pos.id by exact Hq.
      pose proof (Z.div_mod (- v) (2 ^ (- e)) ltac:(lia)) as Hdm.
      pose proof (Z.mod_pos_bound (- v) (2 ^ (- e)) Hq) as Hb.
      nia.
Qed.

(** [numberChunks] is [math.ceil] of the binary64 quotients. *)
Lemma numberChunks_of_eq videoDuration_s :
  numberChunks_of videoDuration_s = ceil (videoDuration_s / 5)%float.
Proof. reflexivity. Qed.

(** *** Monotonicity of the conversion and of the product *)

Lemma shifted_start m : 0 <= m -> shifted m 1 (Build_shr_record m false false).
Proof. intros H. split; [exact H|]. exists 0. cbn. unfold located. lia. Qed.

Lemma shifted_shr_1 m D mrs : 0 < D -> shifted m D mrs -> shifted m (2 * D) (shr_1 mrs).
Proof.
  intros HD [Hq (rem & Hm & Hrange & Hloc)].
  destruct mrs as [q r s]. cbn [shr_m shr_r shr_s] in *.
  unfold shifted.
  destruct q as [|[p|p|]|p]; [| | | |lia]; cbn [shr_1 shr_m shr_r shr_s].
  - split; [lia|]. exists rem. split; [lia|]. unfold located.
    destruct r, s; cbn [orb]; lia.
  - split; [lia|]. exists (D + rem). split; [lia|]. unfold located.
    destruct r, s; cbn [orb]; lia.
  - split; [lia|]. exists rem. split; [lia|]. unfold located.
    destruct r, s; cbn [orb]; lia.
  - split; [lia|]. exists (D + rem). split; [lia|]. unfold located.
    destruct r, s; cbn [orb]; lia.
Qed.

Lemma shifted_iter m p :
  0 <= m ->
  shifted m (2 ^ Zpos p) (SpecFloat.iter_pos shr_1 p (Build_shr_record m false false)).
Proof.
  intros Hm. rewrite iter_pos_iter.
  induction p using Pos.peano_ind.
  - cbn [Pos.iter]. change (2 ^ 1) with (2 * 1). apply shifted_shr_1; [lia|].
    apply shifted_start, Hm.
  - rewrite Pos.iter_succ, Pos2Z.inj_succ, Z.pow_succ_r by lia.
    apply shifted_shr_1; [apply Z.pow_pos_nonneg; lia|exact IHp].
Qed.

Lemma rne_bounds mrs : shr_m mrs <= rne mrs <= shr_m mrs + 1.
Proof.
  unfold rne. destruct mrs as [q [|] [|]];
    cbn [shr_m loc_of_shr_record round_nearest_even]; try lia.
  destruct (IntDef.Z.even q); lia.
Qed.

(** Rounding to nearest is monotone. *)
Lemma rne_mono m1 D1 mrs1 m2 D2 mrs2 :
  0 < D1 -> 0 < D2 ->
  shifted m1 D1 mrs1 -> shifted m2 D2 mrs2 ->
  m1 * D2 <= m2 * D1 ->
  rne mrs1 <= rne mrs2.
Proof.
  intros HD1 HD2 [Hq1 (rem1 & Hm1 & Hr1 & Hl1)] [Hq2 (rem2 & Hm2 & Hr2 & Hl2)] Hle.
  pose proof (rne_bounds mrs1) as Hb1. pose proof (rne_bounds mrs2) as Hb2.
  destruct mrs1 as [q1 r1 s1], mrs2 as [q2 r2 s2].
  cbn [shr_m shr_r shr_s] in *.
  assert (Hq : q1 <= q2).
  { destruct (Z.le_gt_cases q1 q2) as [H|H]; [exact H|exfalso].
    assert (H1 : (q2 + 1) * (D1 * D2) <= q1 * (D1 * D2))
      by (apply Z.mul_le_mono_nonneg_r; nia).
    assert (H2 : rem2 * D1 < D2 * D1) by (apply Z.mul_lt_mono_pos_r; lia).
    assert (H3 : 0 <= rem1 * D2) by nia.
    nia. }
  destruct (Z.eq_dec q1 q2) as [->|Hne]; [|lia].
  assert (Hrem : rem1 * D2 <= rem2 * D1) by nia.
  unfold rne. cbn [shr_m loc_of_shr_record].
  destruct r1, s1, r2, s2; cbn [loc_of_shr_record round_nearest_even];
    try destruct (IntDef.Z.even q2); try lia; exfalso; nia.
Qed.

Lemma digits_bounds m : 2 ^ (dg m - 1) <= Zpos m < 2 ^ dg m.
Proof.
  rewrite digits2_pos_size.
  pose proof (Pos.size_le m) as Hle. pose proof (Pos.size_gt m) as Hgt.
  apply Pos2Z.pos_le_pos in Hle. apply Pos2Z.pos_lt_pos in Hgt.
  rewrite Pos2Z.inj_pow in Hle, Hgt. rewrite (Pos2Z.inj_xO m) in Hle.
  split; [|exact Hgt].
  replace (Zpos (Pos.size m)) with (Zpos (Pos.size m) - 1 + 1) in Hle by lia.
  rewrite Z.pow_add_r, Z.pow_1_r in Hle by lia. lia.
Qed.

Lemma fexp64_eq z : fexp64 z = Z.max (z - 53) (-1074).
Proof. reflexivity. Qed.

(** The first shift of [binary_round_aux] leaves the quotient by
    [2 ^ (fexp - e)] and the bits of the remainder. *)
Lemma first_shift m e :
  e <= fexp64 (dg m + e) ->
  exists mrs,
    shr_fexp prec emax (Zpos m) e loc_Exact = (mrs, fexp64 (dg m + e))
    /\ shifted (Zpos m) (2 ^ (fexp64 (dg m + e) - e)) mrs.
Proof.
  intros Hsh. unfold shr_fexp, shr. cbn [Zdigits2 shr_record_of_loc].
  destruct (fexp64 (dg m + e) - e) as [|p|p] eqn:Hp; [| |lia].
  - eexists. split; [f_equal; lia|]. apply shifted_start. lia.
  - eexists. split; [f_equal; lia|]. apply shifted_iter. lia.
Qed.

(** The quotient has 53 bits, or fewer at the least exponent. *)
Lemma quotient_bounds m e mrs :
  e <= fexp64 (dg m + e) ->
  shifted (Zpos m) (2 ^ (fexp64 (dg m + e) - e)) mrs ->
  (-1074 <= dg m + e - 53 /\ 2 ^ 52 <= shr_m mrs < 2 ^ 53)
  \/ (dg m + e - 53 < -1074 /\ 0 <= shr_m mrs < 2 ^ 52).
Proof.
  intros Hsh [Hq (rem & Hm & [Hrem _])].
  pose proof (digits_bounds m) as [Hlo Hhi].
  rewrite fexp64_eq in *.
  set (sh := Z.max (dg m + e - 53) (-1074) - e) in *.
  assert (Hsh0 : 0 <= sh) by lia.
  assert (HD : 0 < 2 ^ sh) by (apply Z.pow_pos_nonneg; lia).
  destruct (Z.le_gt_cases (-1074) (dg m + e - 53)) as [Hn|Hs].
  - left. split; [exact Hn|].
    assert (Hdg : dg m = sh + 53) by lia.
    rewrite Hdg in Hlo, Hhi.
    replace (sh + 53 - 1) with (52 + sh) in Hlo by lia.
    rewrite Z.pow_add_r in Hlo by lia.
    rewrite (Z.add_comm sh 53), Z.pow_add_r in Hhi by lia.
    split; nia.
  - right. split; [exact Hs|]. split; [exact Hq|].
    assert (Hdg : dg m <= sh + 52) by lia.
    assert (Hp : 2 ^ dg m <= 2 ^ (52 + sh)) by (apply Z.pow_le_mono_r; lia).
    rewrite Z.pow_add_r in Hp by lia. nia.
Qed.

(** The second shift and the overflow test of [binary_round_aux]. *)
Lemma second_shift sx q E :
  -1074 <= E -> 0 <= q <= 2 ^ 53 ->
  (let '(mrs, e) := shr_fexp prec emax q E loc_Exact in
   match shr_m mrs with
   | 0 => S754_zero sx
   | Zpos mq => if e <=? emax - prec then S754_finite sx mq e else S754_infinity sx
   | Zneg _ => S754_nan
   end)
  = outcome sx (carry q E).
Proof.
  intros HE Hq. unfold carry.
  destruct (q =? 2 ^ 53) eqn:Hc.
  - apply Z.eqb_eq in Hc. subst q.
    unfold shr_fexp. cbn [Zdigits2 shr_record_of_loc].
    change (Zdigits2 (2 ^ 53)) with 54.
    replace (fexp64 (54 + E) - E) with 1 by (rewrite fexp64_eq; lia).
    reflexivity.
  - apply Z.eqb_neq in Hc.
    unfold shr_fexp, outcome. cbn [shr_record_of_loc fst snd].
    destruct q as [|mq|mq]; [| |lia].
    + cbn [Zdigits2]. rewrite fexp64_eq.
      destruct (Z.max (0 + E - 53) (-1074) - E) eqn:Hn; [| lia |]; reflexivity.
    + cbn [Zdigits2].
      assert (Hd : dg mq <= 53).
      { pose proof (digits_bounds mq) as [Hlo _].
        destruct (Z.le_gt_cases (dg mq) 53) as [H|H]; [exact H|exfalso].
        assert (2 ^ 53 <= 2 ^ (dg mq - 1)) by (apply Z.pow_le_mono_r; lia).
        lia. }
      rewrite fexp64_eq.
      destruct (Z.max (dg mq + E - 53) (-1074) - E) eqn:Hn; [| lia |]; reflexivity.
Qed.

(** [binary_round_aux] on a mantissa that needs no left shift. *)
Lemma binary_round_aux_outcome sx m e :
  e <= fexp64 (dg m + e) ->
  exists mrs,
    shifted (Zpos m) (2 ^ (fexp64 (dg m + e) - e)) mrs
    /\ binary_round_aux prec emax sx (Zpos m) e loc_Exact
       = outcome sx (carry (rne mrs) (fexp64 (dg m + e))).
Proof.
  intros Hsh. destruct (first_shift m e Hsh) as (mrs & Heq & Hshifted).
  exists mrs. split; [exact Hshifted|].
  unfold binary_round_aux. rewrite Heq. fold (rne mrs).
  apply second_shift.
  - rewrite fexp64_eq. lia.
  - pose proof (rne_bounds mrs).
    destruct (quotient_bounds m e mrs Hsh Hshifted) as [[_ H1]|[_ H1]]; lia.
Qed.

Lemma value_le_common m1 e1 m2 e2 E :
  value_le m1 e1 m2 e2 -> e1 <= E -> e2 <= E ->
  m1 * 2 ^ (E - e2) <= m2 * 2 ^ (E - e1).
Proof.
  unfold value_le. intros Hle H1 H2.
  set (c := Z.min e1 e2) in *.
  assert (Ha : 0 < 2 ^ (e1 - c)) by (apply Z.pow_pos_nonneg; lia).
  assert (Hb : 0 < 2 ^ (e2 - c)) by (apply Z.pow_pos_nonneg; lia).
  assert (Hu : 0 < 2 ^ (E - e1)) by (apply Z.pow_pos_nonneg; lia).
  assert (Hv : 0 < 2 ^ (E - e2)) by (apply Z.pow_pos_nonneg; lia).
  assert (Heq : 2 ^ (e1 - c) * 2 ^ (E - e1) = 2 ^ (e2 - c) * 2 ^ (E - e2)).
  { rewrite <- !Z.pow_add_r by lia. f_equal. lia. }
  set (a := 2 ^ (e1 - c)) in *. set (b := 2 ^ (e2 - c)) in *.
  set (u := 2 ^ (E - e1)) in *. set (v := 2 ^ (E - e2)) in *.
  apply (Z.mul_le_mono_pos_r _ _ (a * u)); [nia|].
  replace (m1 * v * (a * u)) with (m1 * a * (u * v)) by ring.
  replace (m2 * u * (a * u)) with (m2 * b * (u * v))
    by (rewrite Heq; ring).
  apply Z.mul_le_mono_nonneg_r; [nia|exact Hle].
Qed.

Lemma value_le_mag m1 e1 m2 e2 :
  value_le (Zpos m1) e1 (Zpos m2) e2 -> dg m1 + e1 <= dg m2 + e2.
Proof.
  unfold value_le. intros Hle.
  set (c := Z.min e1 e2) in *.
  pose proof (digits_bounds m1) as [Hlo _].
  pose proof (digits_bounds m2) as [_ Hhi].
  assert (Ha : 0 < 2 ^ (e1 - c)) by (apply Z.pow_pos_nonneg; lia).
  assert (Hb : 0 < 2 ^ (e2 - c)) by (apply Z.pow_pos_nonneg; lia).
  assert (H1 : 2 ^ (dg m1 - 1 + (e1 - c)) <= Zpos m1 * 2 ^ (e1 - c))
    by (rewrite Z.pow_add_r by lia; nia).
  assert (H2 : Zpos m2 * 2 ^ (e2 - c) < 2 ^ (dg m2 + (e2 - c)))
    by (rewrite Z.pow_add_r by lia; nia).
  assert (H3 : 2 ^ (dg m1 - 1 + (e1 - c)) < 2 ^ (dg m2 + (e2 - c))) by lia.
  apply Z.pow_lt_mono_r_iff in H3; lia.
Qed.

Lemma outcome_leb qE1 qE2 :
  0 <= fst qE1 -> 0 <= fst qE2 ->
  fst qE1 = 0
  \/ (0 < fst qE2
      /\ (snd qE1 < snd qE2 \/ (snd qE1 = snd qE2 /\ fst qE1 <= fst qE2))) ->
  SFleb (outcome false qE1) (outcome false qE2) = true.
Proof.
  destruct qE1 as [q1 E1], qE2 as [q2 E2]. unfold outcome. cbn [fst snd].
  intros H1 H2 H.
  destruct q1 as [|m1|m1]; [| |lia].
  - destruct q2 as [|m2|m2]; [reflexivity| |lia].
    destruct (E2 <=? 971); reflexivity.
  - destruct H as [H|[Hpos H]]; [lia|].
    destruct q2 as [|m2|m2]; [lia| |lia].
    destruct (E1 <=? 971) eqn:Hf1, (E2 <=? 971) eqn:Hf2;
      try reflexivity.
    + unfold SFleb, SFcompare.
      destruct H as [H|[-> H]].
      * apply Z.compare_lt_iff in H. rewrite H. reflexivity.
      * rewrite Z.compare_refl, Pos.compare_cont_spec. cbn [Pos.switch_Eq].
        assert (Hm : (m1 <= m2)%positive) by lia. unfold Pos.le in Hm.
        destruct (m1 ?= m2)%positive; [reflexivity|reflexivity|congruence].
    + apply Z.leb_gt in Hf1. apply Z.leb_le in Hf2. lia.
Qed.

Lemma rounds_exists sx m e :
  e <= fexp64 (dg m + e) ->
  exists qE, rounds m e qE
             /\ binary_round_aux prec emax sx (Zpos m) e loc_Exact = outcome sx qE.
Proof.
  intros Hsh. destruct (binary_round_aux_outcome sx m e Hsh) as (mrs & Hs & Heq).
  eexists. split; [exists mrs; split; [exact Hs|reflexivity]|exact Heq].
Qed.

Lemma rounds_canonical m e qE :
  e <= fexp64 (dg m + e) -> rounds m e qE -> canonical qE.
Proof.
  intros Hsh (mrs & Hs & ->).
  pose proof (rne_bounds mrs) as Hb.
  unfold canonical, carry.
  destruct (quotient_bounds m e mrs Hsh Hs) as [[Hn Hq]|[Hn Hq]];
    rewrite fexp64_eq;
    destruct (rne mrs =? 2 ^ 53) eqn:Hc;
    [apply Z.eqb_eq in Hc|apply Z.eqb_neq in Hc
    |apply Z.eqb_eq in Hc|apply Z.eqb_neq in Hc];
    cbn [fst snd]; lia.
Qed.

Lemma rounds_normal m e qE :
  e <= fexp64 (dg m + e) -> rounds m e qE ->
  -1074 <= dg m + e - 53 -> 2 ^ 52 <= fst qE.
Proof.
  intros Hsh (mrs & Hs & ->) Hn.
  pose proof (rne_bounds mrs) as Hb.
  unfold carry.
  destruct (quotient_bounds m e mrs Hsh Hs) as [[_ Hq]|[Hn' Hq]]; [|lia].
  destruct (rne mrs =? 2 ^ 53); cbn [fst]; lia.
Qed.

Lemma rounds_mono m1 e1 qE1 m2 e2 qE2 :
  e1 <= fexp64 (dg m1 + e1) -> e2 <= fexp64 (dg m2 + e2) ->
  rounds m1 e1 qE1 -> rounds m2 e2 qE2 ->
  value_le (Zpos m1) e1 (Zpos m2) e2 ->
  result_le qE1 qE2.
Proof.
  intros Hsh1 Hsh2 (mrs1 & Hs1 & ->) (mrs2 & Hs2 & ->) Hle.
  pose proof (value_le_mag _ _ _ _ Hle) as Hmag.
  pose proof (rne_bounds mrs1) as Hb1. pose proof (rne_bounds mrs2) as Hb2.
  pose proof (quotient_bounds m1 e1 mrs1 Hsh1 Hs1) as Hq1.
  pose proof (quotient_bounds m2 e2 mrs2 Hsh2 Hs2) as Hq2.
  assert (HE : fexp64 (dg m1 + e1) <= fexp64 (dg m2 + e2))
    by (rewrite !fexp64_eq; lia).
  destruct (Z.eq_dec (fexp64 (dg m1 + e1)) (fexp64 (dg m2 + e2))) as [Heq|Hne].
  - assert (Hr : rne mrs1 <= rne mrs2).
    { eapply rne_mono; [| |exact Hs1|exact Hs2|].
      - apply Z.pow_pos_nonneg; lia.
      - apply Z.pow_pos_nonneg; lia.
      - rewrite Heq. apply value_le_common; [exact Hle|lia|lia]. }
    unfold result_le, carry. rewrite Heq.
    destruct (rne mrs1 =? 2 ^ 53) eqn:Hc1, (rne mrs2 =? 2 ^ 53) eqn:Hc2;
      rewrite ?Z.eqb_eq, ?Z.eqb_neq in *; cbn [fst snd]; lia.
  - unfold result_le, carry. rewrite !fexp64_eq in *.
    destruct (rne mrs1 =? 2 ^ 53) eqn:Hc1, (rne mrs2 =? 2 ^ 53) eqn:Hc2;
      rewrite ?Z.eqb_eq, ?Z.eqb_neq in *; cbn [fst snd]; lia.
Qed.

Lemma result_le_leb qE1 qE2 :
  0 <= fst qE1 -> 0 <= fst qE2 -> result_le qE1 qE2 ->
  SFleb (outcome false qE1) (outcome false qE2) = true.
Proof. apply outcome_leb. Qed.

(** For canonical results, the order is the order of the numbers. *)
Lemma result_le_value_le qE1 qE2 :
  canonical qE1 -> canonical qE2 -> 0 < fst qE1 -> result_le qE1 qE2 ->
  value_le (fst qE1) (snd qE1) (fst qE2) (snd qE2).
Proof.
  destruct qE1 as [q1 E1], qE2 as [q2 E2]. unfold canonical, result_le, value_le.
  cbn [fst snd]. intros (Hq1 & HE1 & Hc1) (Hq2 & HE2 & Hc2) Hpos [H|[Hpos2 H]]; [lia|].
  destruct H as [H|[-> H]].
  - rewrite Z.min_l by lia. rewrite Z.sub_diag, Z.pow_0_r.
    assert (2 ^ 1 <= 2 ^ (E2 - E1)) by (apply Z.pow_le_mono_r; lia).
    change (2 ^ 1) with 2 in *. nia.
  - rewrite Z.min_id, Z.sub_diag, Z.pow_0_r. lia.
Qed.

Lemma digits_unique m k : 2 ^ (k - 1) <= Zpos m < 2 ^ k -> dg m = k.
Proof.
  intros [Hlo Hhi]. pose proof (digits_bounds m) as [Hlo' Hhi'].
  assert (Hk : 0 < k).
  { destruct (Z.lt_ge_cases 0 k) as [H|H]; [exact H|exfalso].
    destruct (Z.eq_dec k 0) as [->|Hne]; [cbn in Hhi; lia|].
    rewrite (Z.pow_neg_r 2 k) in Hhi by lia. lia. }
  assert (H1 : 2 ^ (k - 1) < 2 ^ dg m) by lia.
  assert (H2 : 2 ^ (dg m - 1) < 2 ^ k) by lia.
  apply Z.pow_lt_mono_r_iff in H1; [|lia|lia].
  apply Z.pow_lt_mono_r_iff in H2; lia.
Qed.

(** An integer, aligned as [binary_round] does before rounding. *)
Lemma align_int a :
  exists mz ez,
    shl_align a 0 (fexp64 (dg a + 0)) = (mz, ez)
    /\ ez <= 0 /\ ez <= fexp64 (dg mz + ez)
    /\ Zpos mz = Zpos a * 2 ^ (- ez)
    /\ -1074 <= dg mz + ez - 53.
Proof.
  unfold shl_align. rewrite Z.add_0_r, Z.sub_0_r, fexp64_eq.
  destruct (Z.max (dg a - 53) (-1074)) as [|p|p] eqn:Hf.
  - exists a, 0. rewrite Z.add_0_r, fexp64_eq. cbn [Z.opp].
    rewrite Z.pow_0_r. repeat split; lia.
  - exists a, 0. rewrite Z.add_0_r, fexp64_eq. cbn [Z.opp].
    rewrite Z.pow_0_r. repeat split; lia.
  - exists (Pos.iter xO a p), (Zneg p).
    rewrite digits2_pos_iter_xO, Pos2Z.inj_add, fexp64_eq, Zpos_iter_xO.
    cbn [Z.opp]. repeat split; lia.
Qed.

Lemma int_rounds_mono a b qa qb :
  (a <= b)%positive -> int_rounds a qa -> int_rounds b qb -> result_le qa qb.
Proof.
  unfold int_rounds. intros Hab.
  destruct (align_int a) as (mza & eza & -> & Hza & Hsa & Hva & _).
  destruct (align_int b) as (mzb & ezb & -> & Hzb & Hsb & Hvb & _).
  intros Ha Hb. eapply rounds_mono; [exact Hsa|exact Hsb|exact Ha|exact Hb|].
  unfold value_le. rewrite Hva, Hvb.
  set (c := Z.min eza ezb).
  rewrite <- !Z.mul_assoc, <- !Z.pow_add_r by lia.
  replace (- eza + (eza - c)) with (- c) by lia.
  replace (- ezb + (ezb - c)) with (- c) by lia.
  apply Z.mul_le_mono_nonneg_r; [apply Z.pow_nonneg; lia|lia].
Qed.

Lemma canonical_valid q E :
  canonical (Zpos q, E) -> E <= 971 -> valid_binary (S754_finite false q E) = true.
Proof.
  unfold canonical. cbn [fst snd valid_binary]. intros (Hq & HE & Hc) Hmax.
  unfold bounded, canonical_mantissa.
  apply andb_true_intro. split; [|apply Z.leb_le; exact Hmax].
  apply Z.eqb_eq. rewrite fexp64_eq.
  destruct Hc as [Hn| ->].
  - rewrite (digits_unique q 53) by (change (53 - 1) with 52; lia). lia.
  - assert (dg q <= 53); [|lia].
    pose proof (digits_bounds q) as [Hlo _].
    destruct (Z.le_gt_cases (dg q) 53) as [H|H]; [exact H|exfalso].
    assert (2 ^ 53 <= 2 ^ (dg q - 1)) by (apply Z.pow_le_mono_r; lia).
    lia.
Qed.

(** What [binary_normalize] makes of a positive integer. *)
Lemma binary_normalize_Zpos a :
  exists q E,
    int_rounds a (Zpos q, E) /\ canonical (Zpos q, E) /\ 2 ^ 52 <= Zpos q
    /\ binary_normalize prec emax (Zpos a) 0 false
       = if E <=? 971 then S754_finite false q E else S754_infinity false.
Proof.
  unfold binary_normalize, binary_round, int_rounds.
  destruct (align_int a) as (mz & ez & Heq & Hz & Hs & Hv & Hn).
  rewrite Z.add_0_r in *. rewrite Heq.
  destruct (rounds_exists false mz ez Hs) as ([q E] & Hr & ->).
  pose proof (rounds_canonical mz ez _ Hs Hr) as Hc.
  pose proof (rounds_normal mz ez _ Hs Hr Hn) as Hq. cbn [fst] in Hq.
  destruct q as [|q|q]; [lia| |lia].
  exists q, E. repeat split; try assumption; try apply Hc.
Qed.

(** The product of a normal float and a positive finite one is rounded
    from a mantissa that needs no left shift. *)
Lemma SFmul_rounds mx ex md ed :
  2 ^ 52 <= Zpos mx ->
  ex + ed <= fexp64 (dg (mx * md) + (ex + ed)).
Proof.
  intros Hn. rewrite fexp64_eq.
  assert (53 <= dg (mx * md)); [|lia].
  pose proof (digits_bounds (mx * md)) as [_ Hhi].
  destruct (Z.le_gt_cases 53 (dg (mx * md))) as [H|H]; [exact H|exfalso].
  assert (2 ^ dg (mx * md) <= 2 ^ 52) by (apply Z.pow_le_mono_r; lia).
  rewrite Pos2Z.inj_mul in Hhi. nia.
Qed.

Lemma value_le_mul m1 e1 m2 e2 md ed :
  value_le (Zpos m1) e1 (Zpos m2) e2 ->
  value_le (Zpos (m1 * md)) (e1 + ed) (Zpos (m2 * md)) (e2 + ed).
Proof.
  unfold value_le. intros H.
  replace (Z.min (e1 + ed) (e2 + ed)) with (Z.min e1 e2 + ed) by lia.
  replace (e1 + ed - (Z.min e1 e2 + ed)) with (e1 - Z.min e1 e2) by lia.
  replace (e2 + ed - (Z.min e1 e2 + ed)) with (e2 - Z.min e1 e2) by lia.
  rewrite !Pos2Z.inj_mul.
  set (u := 2 ^ (e1 - Z.min e1 e2)) in *. set (v := 2 ^ (e2 - Z.min e1 e2)) in *.
  nia.
Qed.

Lemma SFmul_mono mx ex my ey md ed :
  2 ^ 52 <= Zpos mx -> 2 ^ 52 <= Zpos my ->
  value_le (Zpos mx) ex (Zpos my) ey ->
  SFleb (SFmul prec emax (S754_finite false mx ex) (S754_finite false md ed))
        (SFmul prec emax (S754_finite false my ey) (S754_finite false md ed))
  = true.
Proof.
  intros Hx Hy Hle. cbn [SFmul xorb].
  pose proof (SFmul_rounds mx ex md ed Hx) as Hs1.
  pose proof (SFmul_rounds my ey md ed Hy) as Hs2.
  destruct (rounds_exists false _ _ Hs1) as (q1 & Hr1 & ->).
  destruct (rounds_exists false _ _ Hs2) as (q2 & Hr2 & ->).
  apply result_le_leb.
  - apply (rounds_canonical _ _ _ Hs1 Hr1).
  - apply (rounds_canonical _ _ _ Hs2 Hr2).
  - eapply rounds_mono; [exact Hs1|exact Hs2|exact Hr1|exact Hr2|].
    apply value_le_mul, Hle.
Qed.

Lemma SFmul_nonneg mx ex md ed :
  2 ^ 52 <= Zpos mx ->
  SFleb (S754_zero false)
        (SFmul prec emax (S754_finite false mx ex) (S754_finite false md ed))
  = true.
Proof.
  intros Hx. cbn [SFmul xorb].
  pose proof (SFmul_rounds mx ex md ed Hx) as Hs.
  destruct (rounds_exists false _ _ Hs) as (q & Hr & ->).
  change (S754_zero false) with (outcome false (0, 0)).
  apply outcome_leb; cbn [fst snd]; [lia| |left; reflexivity].
  apply (rounds_canonical _ _ _ Hs Hr).
Qed.

(** The float a positive [int] converts to. *)
Lemma float_of_int_Zpos a x :
  float_of_int (Zpos a) = Ok x ->
  exists q E,
    Prim2SF x = S754_finite false q E
    /\ int_rounds a (Zpos q, E) /\ canonical (Zpos q, E) /\ 2 ^ 52 <= Zpos q.
Proof.
  unfold float_of_int.
  destruct (binary_normalize_Zpos a) as (q & E & Hr & Hc & Hn & ->).
  destruct (E <=? 971) eqn:HE; [|discriminate].
  intros Heq.
  assert (Hx : x = SF2Prim (S754_finite false q E)) by congruence.
  exists q, E. split; [|auto]. rewrite Hx.
  apply Prim2SF_SF2Prim, canonical_valid; [exact Hc|apply Z.leb_le, HE].
Qed.

Lemma positive_finite d :
  PrimFloat.ltb 0 d = true -> PrimFloat.ltb d infinity = true ->
  exists md ed, Prim2SF d = S754_finite false md ed.
Proof.
  rewrite !ltb_spec.
  change (Prim2SF 0) with (S754_zero false).
  change (Prim2SF infinity) with (S754_infinity false).
  destruct (Prim2SF d) as [s|s| |s md ed]; cbn.
  - discriminate.
  - destruct s; discriminate.
  - discriminate.
  - destruct s; [discriminate|]. intros _ _. exists md, ed. reflexivity.
Qed.

(** Line 163 in binary64: for a positive finite [d], the product
    [float(a) * d] never decreases as the non-negative [int] [a] grows. *)
Lemma timestamps_monotone a b x y d :
  0 <= a <= b ->
  float_of_int a = Ok x -> float_of_int b = Ok y ->
  PrimFloat.ltb 0 d = true -> PrimFloat.ltb d infinity = true ->
  PrimFloat.leb (x * d) (y * d) = true.
Proof.
  intros Hab Hx Hy Hpos Hfin.
  destruct (positive_finite d Hpos Hfin) as (md & ed & Hd).
  rewrite leb_spec, !mul_spec, Hd. unfold SF64mul.
  destruct a as [|a|a]; [| |lia].
  - injection Hx as <-.
    change (Prim2SF (SF2Prim (binary_normalize prec emax 0 0 false)))
      with (S754_zero false).
    destruct b as [|b|b]; [| |lia].
    + injection Hy as <-. reflexivity.
    + destruct (float_of_int_Zpos b y Hy) as (q & E & -> & _ & _ & Hn).
      apply SFmul_nonneg, Hn.
  - destruct b as [|b|b]; [lia| |lia].
    destruct (float_of_int_Zpos a x Hx) as (qa & Ea & -> & Hra & Hca & Hna).
    destruct (float_of_int_Zpos b y Hy) as (qb & Eb & -> & Hrb & Hcb & Hnb).
    apply SFmul_mono; [exact Hna|exact Hnb|].
    apply (result_le_value_le (Zpos qa, Ea) (Zpos qb, Eb) Hca Hcb); [cbn; lia|].
    apply (int_rounds_mono a b); [lia|exact Hra|exact Hrb].
Qed.


End Floats.

(** ** The script, path by path *)

Section Paths.

Context {Image : Type} {E : Engine Image}.

Implicit Types (w : World E) (output : option string).

Lemma bind_Ok {A B} (m : M E A) (k : A -> M E B) w evs w1 a :
  m w = mkOut evs w1 (Ok a) -> bind m k w = prepend evs (k a w1).
Proof. unfold bind, prepend. intros ->. reflexivity. Qed.

Lemma bind_Raise {A B} (m : M E A) (k : A -> M E B) w evs w1 e :
  m w = mkOut evs w1 (Raise e) -> bind m k w = mkOut evs w1 (Raise e).
Proof. unfold bind. intros ->. reflexivity. Qed.

Lemma gotChunkData_eq output chunkData w :
  gotChunkData output chunkData w
  = mkOut (gotChunkData_events output chunkData) w (Ok tt).
Proof. destruct chunkData as [p|], output as [dir|]; reflexivity. Qed.

Lemma videoEnded_eq output w :
  videoEnded output w
  = let cd := getChunkData E (collector w) in
    mkOut (EvRead None :: EvGetChunkData (snd cd) :: gotChunkData_events output (snd cd))
          {| collector := fst cd; keys := keys w |} (Ok true).
Proof.
  unfold videoEnded, bind. simpl.
  rewrite gotChunkData_eq. simpl. rewrite app_nil_r. reflexivity.
Qed.

Lemma render_eq videoFileName videoDuration_frames frameNumber w :
  render videoFileName videoDuration_frames frameNumber w
  = if frameNumber mod 10 =? 0 then
      match keys w with
      | [] =>
          mkOut [EvImshow videoFileName frameNumber videoDuration_frames; EvWaitKey (-1)]
                w (Ok Continue)
      | k :: ks =>
          mkOut [EvImshow videoFileName frameNumber videoDuration_frames; EvWaitKey k]
                {| collector := collector w; keys := ks |}
                (Ok (if Z.land k 255 =? 113 then Break false else Continue))
      end
    else mkOut [] w (Ok Continue).
Proof.
  unfold render. destruct (frameNumber mod 10 =? 0); [|reflexivity].
  unfold bind, waitKey. simpl.
  destruct (keys w) as [|k ks]; simpl; [reflexivity|].
  destruct (Z.land k 255 =? 113); reflexivity.
Qed.

Lemma grabChunk_eq output frameNumber result w :
  grabChunk output frameNumber result w
  = let cd := getChunkData E (collector w) in
    let w' := {| collector := fst cd; keys := keys w |} in
    match result with
    | CHUNKREADY =>
        mkOut (EvGetChunkData (snd cd) :: gotChunkData_events output (snd cd))
              w' (Ok Continue)
    | COMPLETED =>
        mkOut (EvGetChunkData (snd cd) :: gotChunkData_events output (snd cd)
                 ++ [EvPrint (MsgCompletedAt frameNumber)])
              w' (Ok (Break true))
    | _ => mkOut [] w (Ok Continue)
    end.
Proof.
  unfold grabChunk.
  destruct result; simpl; try reflexivity;
    unfold bind; simpl; rewrite gotChunkData_eq; simpl;
    rewrite ?app_nil_r; reflexivity.
Qed.

Lemma after_submit_eq output videoFileName videoDuration_frames frameNumber result w :
  after_submit output videoFileName videoDuration_frames frameNumber result w
  = let cd := getChunkData E (collector w) in
    let w' := {| collector := fst cd; keys := keys w |} in
    match result with
    | CHUNKREADY =>
        prepend (EvGetChunkData (snd cd) :: gotChunkData_events output (snd cd))
                (render videoFileName videoDuration_frames frameNumber w')
    | COMPLETED =>
        mkOut (EvGetChunkData (snd cd) :: gotChunkData_events output (snd cd)
                 ++ [EvPrint (MsgCompletedAt frameNumber)])
              w' (Ok (Break true))
    | _ => render videoFileName videoDuration_frames frameNumber w
    end.
Proof.
  unfold after_submit, bind. rewrite grabChunk_eq.
  destruct result; simpl;
    try (destruct (render _ _ _ _) as [evs w1 r]; reflexivity).
  rewrite app_nil_r. reflexivity.
Qed.

Lemma iteration_eq videofaces output durationOneFrame_ns videoFileName
    videoDuration_frames image pos_frames w :
  iteration videofaces output durationOneFrame_ns videoFileName
            videoDuration_frames image pos_frames w
  = let read := EvRead (Some (image, pos_frames)) in
    match int_of_float pos_frames with
    | Raise e => mkOut [read] w (Raise e)
    | Ok frameNumber =>
        match float_of_int frameNumber with
        | Raise e => mkOut [read] w (Raise e)
        | Ok n =>
            match videofaces !! str frameNumber with
            | None => mkOut [read] w (Raise (KeyError (str frameNumber)))
            | Some jsonFace =>
                let frame :=
                  buildFrame image frameNumber (n * durationOneFrame_ns)%float jsonFace in
                let cr := submitted frame w in
                prepend [read; EvDefineRegions frame; EvExtractChannels frame (snd cr)]
                  (after_submit output videoFileName videoDuration_frames
                     frameNumber (snd cr)
                     {| collector := fst cr; keys := keys w |})
            end
        end
    end.
Proof.
  unfold iteration.
  erewrite bind_Ok by reflexivity.
  destruct (int_of_float pos_frames) as [frameNumber|e];
    [|erewrite bind_Raise by reflexivity; reflexivity].
  erewrite bind_Ok by reflexivity.
  destruct (float_of_int frameNumber) as [n|e];
    [|erewrite bind_Raise by reflexivity; reflexivity].
  erewrite bind_Ok by reflexivity.
  unfold videofaces_getitem.
  destruct (videofaces !! str frameNumber) as [jsonFace|];
    [|erewrite bind_Raise by reflexivity; reflexivity].
  erewrite bind_Ok by reflexivity.
  erewrite bind_Ok by reflexivity.
  erewrite bind_Ok by reflexivity.
  unfold prepend, after_submit, submitted. simpl. reflexivity.
Qed.

Lemma loop_nil videofaces output durationOneFrame_ns videoFileName
    videoDuration_frames w :
  loop videofaces output durationOneFrame_ns videoFileName videoDuration_frames [] w
  = videoEnded output w.
Proof. reflexivity. Qed.

Lemma loop_cons videofaces output durationOneFrame_ns videoFileName
    videoDuration_frames image pos_frames rest w :
  loop videofaces output durationOneFrame_ns videoFileName videoDuration_frames
       ((image, pos_frames) :: rest) w
  = let o := iteration videofaces output durationOneFrame_ns videoFileName
                       videoDuration_frames image pos_frames w in
    match out_res o with
    | Ok Continue =>
        prepend (out_events o)
          (loop videofaces output durationOneFrame_ns videoFileName
                videoDuration_frames rest (out_world o))
    | Ok (Break success) => mkOut (out_events o) (out_world o) (Ok success)
    | Raise e => mkOut (out_events o) (out_world o) (Raise e)
    end.
Proof.
  cbn [loop]. unfold bind.
  destruct (iteration _ _ _ _ _ _ _ _) as [evs w1 [[|success]|e]];
    cbn [out_res out_events out_world ret]; rewrite ?app_nil_r; reflexivity.
Qed.

Lemma after_loop_eq (m : M E bool) w :
  bind m (fun success =>
    bind (if success then print MsgFinished else print MsgInterrupted) (fun _ =>
    bind (emit EvRelease) (fun _ => emit EvDestroyAllWindows))) w
  = around_loop [] (m w).
Proof.
  unfold bind, around_loop.
  destruct (m w) as [evs w1 [[|]|e]]; reflexivity.
Qed.

Lemma prepend_around_loop evs before (lo : Out E bool) :
  prepend evs (around_loop before lo) = around_loop (evs ++ before) lo.
Proof.
  unfold prepend, around_loop.
  destruct (out_res lo); cbn [out_events out_world out_res];
    rewrite <- app_assoc; reflexivity.
Qed.

Lemma run_eq video videofaces output_exists pressed videoPath facePath studyPath output :
  run E video videofaces output_exists pressed videoPath facePath studyPath output
  = let w0 := {| collector := createCollector E; keys := pressed |} in
    if negb (initializeStudyFromFile E studyPath) then
      mkOut [EvPrint MsgCreatedFactory; EvPrint MsgStudyFailed] w0 (Raise (SystemExit 1))
    else if CollectorState_eqb (getCollectorState E (createCollector E)) ERROR then
      mkOut [EvPrint MsgCreatedFactory; EvPrint (MsgCreatedStudy studyPath);
             EvPrint MsgCollectorFailed] w0 (Raise (SystemExit 1))
    else
      match settings video with
      | Raise e => mkOut (opening videoPath studyPath) w0 (Raise e)
      | Ok (durationOneFrame_ns, videoDuration_frames, numberChunks) =>
          around_loop
            (opening videoPath studyPath
               ++ configuration (CAP_PROP_FPS video) numberChunks output output_exists)
            (loop videofaces output durationOneFrame_ns (os_path_basename videoPath)
                  videoDuration_frames (pictures video)
                  (configured E (CAP_PROP_FPS video) numberChunks pressed))
      end.
Proof.
  unfold run, doExtraction, settings. cbv zeta.
  erewrite bind_Ok by reflexivity.
  destruct (initializeStudyFromFile E studyPath); cbn [negb];
    [|erewrite bind_Raise by reflexivity; reflexivity].
  erewrite bind_Ok by reflexivity.
  erewrite bind_Ok by reflexivity.
  erewrite bind_Ok by reflexivity.
  cbn [collector].
  destruct (CollectorState_eqb _ ERROR);
    [erewrite bind_Raise by reflexivity; reflexivity|].
  erewrite bind_Ok by reflexivity.
  erewrite bind_Ok by reflexivity.
  erewrite bind_Ok by reflexivity.
  destruct (truediv _ _) as [durationOneFrame_ns|e]; cbn [and_then];
    [|erewrite bind_Raise by reflexivity; reflexivity].
  erewrite bind_Ok by reflexivity.
  destruct (int_of_float _) as [videoDuration_frames|e]; cbn [and_then];
    [|erewrite bind_Raise by reflexivity; reflexivity].
  erewrite bind_Ok by reflexivity.
  destruct (videoDuration_s_of _ _) as [videoDuration_s|e]; cbn [and_then];
    [|erewrite bind_Raise by reflexivity; reflexivity].
  erewrite bind_Ok by reflexivity.
  destruct (numberChunks_of _) as [numberChunks|e]; cbn [and_then];
    [|erewrite bind_Raise by reflexivity; reflexivity].
  erewrite bind_Ok by reflexivity.
  erewrite bind_Ok by reflexivity.
  erewrite bind_Ok by reflexivity.
  erewrite bind_Ok by reflexivity.
  erewrite bind_Ok by reflexivity.
  erewrite (bind_Ok _ _ _ (match output with
                           | Some dir => if negb output_exists then [EvMakedirs dir] else []
                           | None => []
                           end))
    by (destruct output; [destruct output_exists|]; reflexivity).
  erewrite bind_Ok by reflexivity.
  rewrite after_loop_eq, !prepend_around_loop.
  reflexivity.
Qed.

Lemma around_loop_events before (lo : Out E bool) :
  out_events (around_loop before lo) = before ++ full_trace lo.
Proof.
  unfold around_loop, full_trace.
  destruct (out_res lo); cbn [out_events]; rewrite ?app_nil_r; reflexivity.
Qed.

Lemma around_loop_res before (lo : Out E bool) :
  out_res (around_loop before lo)
  = match out_res lo with
    | Ok _ => Ok tt
    | Raise e => Raise e
    end.
Proof. unfold around_loop. destruct (out_res lo); reflexivity. Qed.

(** *** Reasoning on every event of a trace *)

Implicit Types (P : Event Image -> list (Event Image) -> Prop).

Lemma each_event_nil P : each_event P [].
Proof. intros [|? ?] ev post H; discriminate H. Qed.

Lemma each_event_cons P ev t :
  each_event P (ev :: t) <-> P ev t /\ each_event P t.
Proof.
  split.
  - intros H. split.
    + apply (H []). reflexivity.
    + intros pre ev' post ->. apply (H (ev :: pre)). reflexivity.
  - intros [H1 H2] [|e pre] ev' post Heq; injection Heq as -> ->.
    + exact H1.
    + eapply H2. reflexivity.
Qed.

Lemma each_event_app P t1 t2 :
  each_event (fun ev post => P ev (post ++ t2)) t1 ->
  each_event P t2 ->
  each_event P (t1 ++ t2).
Proof.
  induction t1 as [|ev t1 IH]; intros H1 H2; [exact H2|].
  apply each_event_cons in H1 as [H1 H1'].
  cbn [app]. apply each_event_cons. split; [exact H1|].
  apply IH; assumption.
Qed.

(** *** How a trace of the loop begins, and induction over the loop *)

Lemma loop_head videofaces output durationOneFrame_ns videoFileName
    videoDuration_frames pics w :
  exists r tl,
    out_events (loop videofaces output durationOneFrame_ns videoFileName
                     videoDuration_frames pics w) = EvRead r :: tl.
Proof.
  destruct pics as [|[image pos_frames] rest].
  - rewrite loop_nil, videoEnded_eq. cbv zeta. cbn [out_events]. eauto.
  - rewrite loop_cons, iteration_eq. cbv zeta.
    destruct (int_of_float pos_frames) as [frameNumber|e]; [|cbn; eauto].
    destruct (float_of_int frameNumber) as [n|e]; [|cbn; eauto].
    destruct (videofaces !! str frameNumber) as [jsonFace|]; [|cbn; eauto].
    unfold prepend. cbn [out_res out_events out_world].
    destruct (out_res _) as [[|success]|e]; cbn; eauto.
Qed.

Lemma full_trace_head videofaces output durationOneFrame_ns videoFileName
    videoDuration_frames pics w :
  exists r tl,
    full_trace (loop videofaces output durationOneFrame_ns videoFileName
                     videoDuration_frames pics w) = EvRead r :: tl.
Proof.
  destruct (loop_head videofaces output durationOneFrame_ns videoFileName
              videoDuration_frames pics w) as (r & tl & Heq).
  unfold full_trace. rewrite Heq. cbn. eauto.
Qed.

(** To show [P] of every event of the loop's whole trace, show it on the
    end-of-video path, on the closing events, and on one iteration followed
    by the next read (when it continues), by the closing events (when it
    breaks) or by nothing (when it raises).  [P] may depend on how the loop
    ends. *)
Lemma loop_each_event (P : option exn -> Event Image -> list (Event Image) -> Prop)
    videofaces output durationOneFrame_ns videoFileName videoDuration_frames :
  (forall w, each_event (P None) (full_trace (videoEnded output w))) ->
  (forall success, each_event (P None) (closing success)) ->
  (forall image pos_frames w tail r,
     match out_res (iteration videofaces output durationOneFrame_ns videoFileName
                              videoDuration_frames image pos_frames w) with
     | Ok Continue => exists p tl, tail = EvRead p :: tl
     | Ok (Break success) => tail = closing success /\ r = None
     | Raise e => tail = [] /\ r = Some e
     end ->
     each_event (fun ev post => P r ev (post ++ tail))
       (out_events (iteration videofaces output durationOneFrame_ns videoFileName
                              videoDuration_frames image pos_frames w))) ->
  forall pics w,
    let lo := loop videofaces output durationOneFrame_ns videoFileName
                   videoDuration_frames pics w in
    each_event (P (raised lo)) (full_trace lo).
Proof.
  intros Hend Hclosing Hiter.
  induction pics as [|[image pos_frames] rest IH]; intros w; cbv zeta.
  - rewrite loop_nil. rewrite videoEnded_eq at 1. apply Hend.
  - rewrite loop_cons. cbv zeta.
    specialize (Hiter image pos_frames w).
    destruct (iteration _ _ _ _ _ _ _ _) as [evs w1 [[|success]|e]];
      cbn [out_res out_events out_world] in *.
    + unfold full_trace, prepend, raised. cbn [out_res out_events].
      rewrite <- app_assoc. apply each_event_app; [|apply IH].
      apply Hiter. apply full_trace_head.
    + unfold full_trace, raised. cbn [out_res out_events].
      apply each_event_app; [|apply Hclosing]. apply Hiter. split; reflexivity.
    + unfold full_trace, raised. cbn [out_res out_events].
      apply each_event_app; [|apply each_event_nil]. apply Hiter. split; reflexivity.
Qed.

Lemma each_event_In P t ev :
  each_event P t -> In ev t -> exists post, P ev post.
Proof.
  intros H Hin. apply in_split in Hin as (pre & post & ->).
  exists post. eapply H. reflexivity.
Qed.

(** *** The events outside the loop *)

Lemma each_event_Forall P (Q : Event Image -> Prop) t :
  Forall Q t -> (forall ev post, Q ev -> P ev post) -> each_event P t.
Proof.
  intros HQ HPQ. induction HQ as [|ev t Hev _ IH].
  - apply each_event_nil.
  - apply each_event_cons. split; [apply HPQ, Hev|exact IH].
Qed.

Lemma opening_startup videoPath studyPath :
  Forall startup (@opening Image videoPath studyPath).
Proof. unfold opening. repeat constructor. Qed.

Lemma configuration_startup targetFPS numberChunks output output_exists :
  Forall startup (@configuration Image targetFPS numberChunks output output_exists).
Proof.
  unfold configuration.
  destruct output as [dir|]; [destruct output_exists|]; repeat constructor.
Qed.

(** A run either stops before the loop with an exception, having made only
    start-up calls, or goes through the loop. *)
Lemma run_cases video videofaces output_exists pressed videoPath facePath studyPath output :
  let o := run E video videofaces output_exists pressed videoPath facePath studyPath output in
  (exists e, out_res o = Raise e /\ Forall startup (out_events o)
             /\ (forall m, ~ In (EvSetNumberChunks m) (out_events o)))
  \/
  (exists durationOneFrame_ns videoDuration_frames numberChunks,
     settings video = Ok (durationOneFrame_ns, videoDuration_frames, numberChunks)
     /\ o = around_loop
              (opening videoPath studyPath
                 ++ configuration (CAP_PROP_FPS video) numberChunks output output_exists)
              (loop videofaces output durationOneFrame_ns (os_path_basename videoPath)
                    videoDuration_frames (pictures video)
                    (configured E (CAP_PROP_FPS video) numberChunks pressed))).
Proof.
  cbv zeta. rewrite run_eq. cbv zeta.
  destruct (negb _).
  { left. eexists. cbn. split; [reflexivity|]. split; [repeat constructor|].
    intros m [H|[H|[]]]; discriminate H. }
  destruct (CollectorState_eqb _ _).
  { left. eexists. cbn. split; [reflexivity|]. split; [repeat constructor|].
    intros m [H|[H|[H|[]]]]; discriminate H. }
  destruct (settings video) as [[[d frames] numberChunks]|e].
  - right. exists d, frames, numberChunks. split; reflexivity.
  - left. eexists. cbn. split; [reflexivity|]. split; [repeat constructor|].
    intros m [H|[H|[H|[H|[]]]]]; discriminate H.
Qed.

(** *** The frame that is submitted *)

Lemma buildFrame_number (image : Image) frameNumber timestamp jsonFace :
  vf_number (fr_video (buildFrame image frameNumber timestamp jsonFace)) = frameNumber.
Proof. unfold buildFrame. destruct (frameNumber =? 1000); reflexivity. Qed.

Lemma buildFrame_timestamp (image : Image) frameNumber timestamp jsonFace :
  vf_timestamp_ns (fr_video (buildFrame image frameNumber timestamp jsonFace)) = timestamp.
Proof. unfold buildFrame. destruct (frameNumber =? 1000); reflexivity. Qed.

Lemma buildFrame_markers (image : Image) frameNumber timestamp jsonFace :
  fr_markers (buildFrame image frameNumber timestamp jsonFace)
  = if frameNumber =? 1000 then ["This is the 1000th frame"] else [].
Proof. unfold buildFrame. destruct (frameNumber =? 1000); reflexivity. Qed.

End Paths.

(** Splits a goal on an iteration into the paths through lines 160-223:
    the three exceptions, and for each collector state the overlay branch
    taken. *)
Ltac iteration_paths :=
  rewrite iteration_eq; cbv zeta;
  let frameNumber := fresh "frameNumber" in
  let n := fresh "n" in
  let jsonFace := fresh "jsonFace" in
  let k := fresh "k" in
  let ks := fresh "ks" in
  let Hposition := fresh "Hposition" in
  let Hfloat := fresh "Hfloat" in
  let Hface := fresh "Hface" in
  let Hresult := fresh "Hresult" in
  let Hmod := fresh "Hmod" in
  let Hkeys := fresh "Hkeys" in
  let Hkey := fresh "Hkey" in
  lazymatch goal with
  | |- context [match int_of_float ?pos with _ => _ end] =>
      destruct (int_of_float pos) as [frameNumber|?] eqn:Hposition
  end;
  [destruct (float_of_int frameNumber) as [n|?] eqn:Hfloat;
   [lazymatch goal with
    | |- context [match ?vf !! str frameNumber with _ => _ end] =>
        destruct (vf !! str frameNumber) as [jsonFace|] eqn:Hface
    end;
    [rewrite after_submit_eq; cbv zeta;
     destruct (snd (submitted _ _)) eqn:Hresult;
     rewrite ?render_eq;
     try (destruct (frameNumber mod 10 =? 0) eqn:Hmod;
          [destruct (keys _) as [|k ks] eqn:Hkeys;
           [|destruct (Z.land k 255 =? 113) eqn:Hkey]|])
    |]|]|];
  unfold prepend; cbn [out_res out_events out_world app].

(** Walks through an explicit list of events. *)
Ltac walk :=
  repeat (apply each_event_cons; split);
  try apply each_event_nil.

(** Splits on the chunk that [getChunkData] returned and on the output
    folder, so that the events after it are explicit. *)
Ltac chunk_cases :=
  repeat match goal with
  | |- context [gotChunkData_events ?o ?c] =>
      destruct c; [destruct o|];
      cbn [gotChunkData_events savePayload_events app]
  end.


(** ** The claims *)

Section Claims.

Context {Image : Type} {E : Engine Image}.

Implicit Types (video : Video Image) (videofaces : gmap string JsonFace)
  (pressed : list Z) (output : option string) (w : World E).

(** A property of single events that holds of the start-up calls, and of
    the loop's whole trace, holds of the whole run. *)
Lemma run_each_event (P : option exn -> Event Image -> list (Event Image) -> Prop)
    video videofaces output_exists pressed videoPath facePath studyPath output :
  (forall r ev post, startup ev -> P r ev post) ->
  (forall durationOneFrame_ns videoDuration_frames numberChunks pics w,
     settings video = Ok (durationOneFrame_ns, videoDuration_frames, numberChunks) ->
     let lo := loop videofaces output durationOneFrame_ns (os_path_basename videoPath)
                    videoDuration_frames pics w in
     each_event (P (raised lo)) (full_trace lo)) ->
  let o := run E video videofaces output_exists pressed videoPath facePath studyPath output in
  each_event (P (raised o)) (out_events o).
Proof.
  intros Hstart Hloop. cbv zeta.
  destruct (run_cases (E := E) video videofaces output_exists pressed
              videoPath facePath studyPath output)
    as [(e & Hres & Hst & _)|(d & frames & n & Hset & ->)].
  - eapply each_event_Forall; [exact Hst|]. intros ev post. apply Hstart.
  - rewrite around_loop_events.
    replace (raised (around_loop _ _)) with
      (raised (loop videofaces output d (os_path_basename videoPath) frames
                    (pictures video) (configured E (CAP_PROP_FPS video) n pressed)))
      by (unfold raised; rewrite around_loop_res; destruct (out_res _); reflexivity).
    apply each_event_app; [|apply (Hloop _ _ _ _ _ Hset)].
    eapply each_event_Forall.
    + apply Forall_app. split; [apply opening_startup|apply configuration_startup].
    + intros ev post. apply Hstart.
Qed.


(** C1, amended.  When [extractChannels] returns [ERROR] the script does not
    act on it: no chunk is retrieved for that frame and the loop goes on, to
    the next [read()], after the overlay and key test when the frame number
    is a multiple of 10. *)
Theorem error_result_goes_on
    video videofaces output_exists pressed videoPath facePath studyPath output
    pre frame post :
  out_events (run E video videofaces output_exists pressed
                  videoPath facePath studyPath output)
    = pre ++ EvExtractChannels frame ERROR :: post ->
  goes_on (vf_number (fr_video frame)) post.
Proof.
  set (P := fun (_ : option exn) (ev : Event Image) (post : list (Event Image)) =>
              match ev with
              | EvExtractChannels f ERROR => goes_on (vf_number (fr_video f)) post
              | _ => True
              end).
  intros Htrace.
  refine (run_each_event P video videofaces output_exists pressed
            videoPath facePath studyPath output _ _ pre _ post Htrace).
  - intros r [] ? Hst; try destruct Hst; exact I.
  - intros d frames numberChunks pics w _. apply loop_each_event.
    + intros w'. rewrite videoEnded_eq. cbv zeta. unfold full_trace.
      cbn [out_events out_res app]. chunk_cases; cbn; walk; exact I.
    + intros [|]; cbn; walk; exact I.
    + intros image pos_frames w' tail r. iteration_paths; intros Htail;
        chunk_cases; walk; try exact I;
        unfold P; rewrite buildFrame_number; cbn [app goes_on].
      * split; [apply Z.eqb_eq, Hmod|exact Htail].
      * split; [apply Z.eqb_eq, Hmod|]. rewrite Hkey. apply Htail.
      * split; [apply Z.eqb_eq, Hmod|]. rewrite Hkey. exact Htail.
      * destruct Htail as (p & tl & ->). apply Z.eqb_neq, Hmod.
Qed.


(** C5.  When the loop reaches a picture whose frame number has no entry in
    the face data, the lookup raises [KeyError]; nothing catches it, so it
    leaves [doExtraction] at once: the [read()] of that picture is the last
    event of the run, and no chunk is retrieved or saved after it. *)
Theorem missing_annotation_raises
    video videofaces output_exists pressed videoPath facePath studyPath output
    pre image pos_frames post frameNumber :
  let o := run E video videofaces output_exists pressed
               videoPath facePath studyPath output in
  out_events o = pre ++ EvRead (Some (image, pos_frames)) :: post ->
  int_of_float pos_frames = Ok frameNumber ->
  videofaces !! str frameNumber = None ->
  out_res o = Raise (KeyError (str frameNumber)) /\ post = [].
Proof.
  set (P := fun (r : option exn) (ev : Event Image) (post : list (Event Image)) =>
              match ev with
              | EvRead (Some (_, pos)) =>
                  forall n, int_of_float pos = Ok n -> videofaces !! str n = None ->
                            r = Some (KeyError (str n)) /\ post = []
              | _ => True
              end).
  cbv zeta. intros Htrace Hnumber Hmissing.
  enough (HP : P (raised (run E video videofaces output_exists pressed
                              videoPath facePath studyPath output))
                 (EvRead (Some (image, pos_frames))) post).
  { destruct (HP frameNumber Hnumber Hmissing) as [Hr ->]. split; [|reflexivity].
    unfold raised in Hr. destruct (out_res _) as [[]|e]; congruence. }
  clear Hnumber Hmissing.
  refine (run_each_event P video videofaces output_exists pressed
            videoPath facePath studyPath output _ _ pre _ post Htrace).
  - intros r [] ? Hst; try destruct Hst; exact I.
  - intros d frames numberChunks pics w _. apply loop_each_event.
    + intros w'. rewrite videoEnded_eq. cbv zeta. unfold full_trace.
      cbn [out_events out_res app]. chunk_cases; cbn; walk; exact I.
    + intros [|]; cbn; walk; exact I.
    + intros image' pos' w' tail r. iteration_paths; intros Htail;
        chunk_cases; walk; try exact I;
        intros n0 Hn0 Hmiss; try congruence.
      * destruct Htail as [-> ->]. split; [congruence|reflexivity].
      * match goal with
        | H : int_of_float _ = Ok ?m, H' : float_of_int ?m = Raise _ |- _ =>
            destruct (float_of_int_of_float _ _ H) as (f & Hf); congruence
        end.
Qed.

(** C7, amended.  The keyboard is polled only in iterations whose frame
    number is a multiple of 10, once, after the submit and the chunk
    handling, and not when the submit returned [COMPLETED]; in every other
    iteration it is not polled at all.  Whenever the polled key is [q] the
    run is reported as interrupted and ends there, capture released, with no
    further [read()] and no [getChunkData]; with any other key the loop goes
    on to the next [read()]. *)
Theorem key_test_every_tenth_frame
    video videofaces output_exists pressed videoPath facePath studyPath output :
  let o := run E video videofaces output_exists pressed
               videoPath facePath studyPath output in
  (forall pre frame result post,
     out_events o = pre ++ EvExtractChannels frame result :: post ->
     key_checks post
     = if (vf_number (fr_video frame) mod 10 =? 0)
          && negb (CollectorState_eqb result COMPLETED)
       then 1%nat else 0%nat)
  /\ (forall pre key post,
        out_events o = pre ++ EvWaitKey key :: post ->
        if Z.land key 255 =? 113 then post = closing false
        else exists p tl, post = EvRead p :: tl).
Proof.
  set (P := fun (_ : option exn) (ev : Event Image) (post : list (Event Image)) =>
              match ev with
              | EvExtractChannels frame result =>
                  key_checks post
                  = if (vf_number (fr_video frame) mod 10 =? 0)
                       && negb (CollectorState_eqb result COMPLETED)
                    then 1%nat else 0%nat
              | EvWaitKey key =>
                  if Z.land key 255 =? 113 then post = closing false
                  else exists p tl, post = EvRead p :: tl
              | _ => True
              end).
  cbv zeta.
  enough (HP : each_event
                 (P (raised (run E video videofaces output_exists pressed
                                 videoPath facePath studyPath output)))
                 (out_events (run E video videofaces output_exists pressed
                                  videoPath facePath studyPath output))).
  { split.
    - intros pre frame result post Htrace. exact (HP pre _ post Htrace).
    - intros pre key post Htrace. exact (HP pre _ post Htrace). }
  apply run_each_event.
  - intros r [] ? Hst; try destruct Hst; exact I.
  - intros d frames numberChunks pics w _. apply loop_each_event.
    + intros w'. rewrite videoEnded_eq. cbv zeta. unfold full_trace.
      cbn [out_events out_res app]. chunk_cases; cbn; walk; exact I.
    + intros [|]; cbn; walk; exact I.
    + intros image pos_frames w' tail r. iteration_paths; intros Htail;
        chunk_cases; walk; try exact I;
        unfold P; rewrite ?buildFrame_number; cbn [app key_checks];
        rewrite ?Hmod, ?Hkey; cbn [andb negb CollectorState_eqb];
        try (destruct Htail as (p & tl & ->); cbn [key_checks]);
        try (destruct Htail as [-> ->]; cbn [key_checks closing]);
        try change (Z.land (-1) 255 =? 113) with false; cbv iota;
        try reflexivity; eauto.
Qed.

(** C6, amended.  On every path on which [doExtraction] returns (end of the
    video, [COMPLETED], the [q] key) the capture is released, as the
    last-but-one call of the run; [release] is called nowhere else, so when
    an exception leaves [doExtraction] the capture has not been released. *)
Theorem capture_released_when_returning
    video videofaces output_exists pressed videoPath facePath studyPath output :
  let o := run E video videofaces output_exists pressed
               videoPath facePath studyPath output in
  (out_res o = Ok tt ->
   exists pre success, out_events o = pre ++ closing success)
  /\ (forall pre post,
        out_events o = pre ++ EvRelease :: post ->
        out_res o = Ok tt /\ post = [EvDestroyAllWindows]).
Proof.
  cbv zeta. split.
  - destruct (run_cases (E := E) video videofaces output_exists pressed
                videoPath facePath studyPath output)
      as [(e & Hres & _)|(d & frames & n & _ & ->)].
    + rewrite Hres. discriminate.
    + rewrite around_loop_res, around_loop_events. unfold full_trace.
      destruct (out_res _) as [success|e]; [|discriminate].
      intros _. eexists _, success. rewrite app_assoc. reflexivity.
  - set (P := fun (r : option exn) (ev : Event Image) (post : list (Event Image)) =>
                match ev with
                | EvRelease => r = None /\ post = [EvDestroyAllWindows]
                | _ => True
                end).
    intros pre post Htrace.
    enough (HP : P (raised (run E video videofaces output_exists pressed
                                videoPath facePath studyPath output))
                   EvRelease post).
    { destruct HP as [Hr ->]. split; [|reflexivity].
      unfold raised in Hr. destruct (out_res _) as [[]|e]; congruence. }
    refine (run_each_event P video videofaces output_exists pressed
              videoPath facePath studyPath output _ _ pre _ post Htrace).
    + intros r [] ? Hst; try destruct Hst; exact I.
    + intros d frames numberChunks pics w _. apply loop_each_event.
      * intros w'. rewrite videoEnded_eq. cbv zeta. unfold full_trace.
        cbn [out_events out_res app].
        chunk_cases; cbn; walk; try exact I; split; reflexivity.
      * intros [|]; cbn; walk; try exact I; split; reflexivity.
      * intros image pos_frames w' tail r. iteration_paths; intros Htail;
          chunk_cases; walk; exact I.
Qed.

(** C9.  When the capture reports a frame rate of zero (as it does for a
    video that failed to open), line 112 divides by zero: the run ends
    there with [ZeroDivisionError], after [cv2.VideoCapture] and before
    anything is configured, read or submitted.  With a positive frame rate
    both divisions by [targetFPS] (lines 112 and 117) are defined. *)
Theorem zero_frame_rate_raises
    video videofaces output_exists pressed videoPath facePath studyPath output :
  (PrimFloat.eqb (CAP_PROP_FPS video) 0 = true ->
   initializeStudyFromFile E studyPath = true ->
   getCollectorState E (createCollector E) <> ERROR ->
   run E video videofaces output_exists pressed videoPath facePath studyPath output
   = mkOut (opening videoPath studyPath)
           {| collector := createCollector E; keys := pressed |}
           (Raise ZeroDivisionError))
  /\ (PrimFloat.ltb 0 (CAP_PROP_FPS video) = true ->
      truediv 1000000000 (CAP_PROP_FPS video)
      = Ok (1000000000 / CAP_PROP_FPS video)%float
      /\ forall videoDuration_frames n,
           float_of_int videoDuration_frames = Ok n ->
           videoDuration_s_of videoDuration_frames (CAP_PROP_FPS video)
           = Ok (n / CAP_PROP_FPS video)%float).
Proof.
  split.
  - intros Hzero Hstudy Hstate. rewrite run_eq. cbv zeta.
    rewrite Hstudy. cbn [negb].
    destruct (getCollectorState E (createCollector E));
      try (exfalso; apply Hstate; reflexivity);
      cbn [CollectorState_eqb]; unfold settings, truediv; rewrite Hzero;
      reflexivity.
  - intros Hpos.
    assert (Hnz : PrimFloat.eqb (CAP_PROP_FPS video) 0 = false).
    { revert Hpos. rewrite FloatAxioms.ltb_spec, FloatAxioms.eqb_spec.
      unfold SFltb, SFeqb.
      change (Prim2SF 0) with (S754_zero false).
      destruct (Prim2SF (CAP_PROP_FPS video)) as [s|s| |s m e]; cbn;
        try discriminate; destruct s; try discriminate; reflexivity. }
    unfold videoDuration_s_of, truediv. rewrite Hnz. split; [reflexivity|].
    intros frames n ->. reflexivity.
Qed.

(** The loop and what follows it never set the number of chunks. *)
Lemma loop_never_configures videofaces output durationOneFrame_ns videoFileName
    videoDuration_frames pics w m :
  ~ In (EvSetNumberChunks m)
       (full_trace (loop videofaces output durationOneFrame_ns videoFileName
                         videoDuration_frames pics w)).
Proof.
  set (P := fun (_ : option exn) (ev : Event Image) (_ : list (Event Image)) =>
              match ev with
              | EvSetNumberChunks _ => False
              | _ => True
              end).
  intros Hin.
  eapply (each_event_In (P _)) in Hin as (post & HP); [exact HP|].
  apply loop_each_event.
  - intros w'. rewrite videoEnded_eq. cbv zeta. unfold full_trace.
    cbn [out_events out_res app]. chunk_cases; cbn; walk; exact I.
  - intros [|]; cbn; walk; exact I.
  - intros image pos_frames w' tail r. iteration_paths; intros Htail;
      chunk_cases; walk; exact I.
Qed.


(** *** With and without an output folder *)

Lemma without_files_app (t1 t2 : list (Event Image)) :
  without_files (t1 ++ t2) = without_files t1 ++ without_files t2.
Proof. apply List.filter_app. Qed.

Lemma without_files_cons ev (t : list (Event Image)) :
  without_files (ev :: t)
  = if file_event ev then without_files t else ev :: without_files t.
Proof. unfold without_files. cbn [List.filter]. destruct (file_event ev); reflexivity. Qed.

Lemma without_files_gotChunkData dir chunkData :
  without_files (gotChunkData_events (Some dir) chunkData)
  = @gotChunkData_events Image None chunkData.
Proof. destruct chunkData; reflexivity. Qed.

Lemma without_files_closing success :
  without_files (closing success) = @closing Image success.
Proof. destruct success; reflexivity. Qed.

Lemma iteration_same_but_files videofaces dir durationOneFrame_ns videoFileName
    videoDuration_frames image pos_frames w :
  same_but_files
    (iteration videofaces (Some dir) durationOneFrame_ns videoFileName
               videoDuration_frames image pos_frames w)
    (iteration videofaces None durationOneFrame_ns videoFileName
               videoDuration_frames image pos_frames w).
Proof.
  unfold same_but_files. rewrite !iteration_eq. cbv zeta.
  destruct (int_of_float pos_frames) as [frameNumber|e]; [|repeat split].
  destruct (float_of_int frameNumber) as [n|e]; [|repeat split].
  destruct (videofaces !! str frameNumber) as [jsonFace|]; [|repeat split].
  rewrite !after_submit_eq. cbv zeta.
  destruct (snd (submitted _ _)); rewrite ?render_eq;
    try (destruct (frameNumber mod 10 =? 0);
         [destruct (keys _) as [|k ks]|]);
    unfold prepend; cbn [out_events out_world out_res app];
    repeat (rewrite without_files_cons; cbn [file_event]);
    rewrite ?without_files_app, ?without_files_gotChunkData;
    repeat split.
Qed.

Lemma loop_same_but_files videofaces dir durationOneFrame_ns videoFileName
    videoDuration_frames pics w :
  same_but_files
    (loop videofaces (Some dir) durationOneFrame_ns videoFileName
          videoDuration_frames pics w)
    (loop videofaces None durationOneFrame_ns videoFileName
          videoDuration_frames pics w).
Proof.
  revert w. induction pics as [|[image pos_frames] rest IH]; intros w.
  - rewrite !loop_nil, !videoEnded_eq. cbv zeta. unfold same_but_files.
    cbn [out_events out_world out_res].
    repeat (rewrite without_files_cons; cbn [file_event]).
    rewrite without_files_gotChunkData.
    repeat split.
  - rewrite !loop_cons. cbv zeta.
    destruct (iteration_same_but_files videofaces dir durationOneFrame_ns
                videoFileName videoDuration_frames image pos_frames w)
      as (Hev & Hw & Hr).
    rewrite Hr, Hw.
    destruct (out_res (iteration videofaces None durationOneFrame_ns videoFileName
                                 videoDuration_frames image pos_frames w))
      as [[|success]|e]; unfold same_but_files, prepend;
      cbn [out_events out_world out_res].
    2, 3: repeat split; exact Hev.
    destruct (IH (out_world
                    (iteration videofaces None durationOneFrame_ns videoFileName
                               videoDuration_frames image pos_frames w)))
      as (Hev' & Hw' & Hr').
    rewrite without_files_app, Hev, Hev'. repeat split; assumption.
Qed.

Lemma around_loop_same_but_files before_a before_b (la lb : Out E bool) :
  without_files before_a = before_b ->
  same_but_files la lb ->
  same_but_files (around_loop before_a la) (around_loop before_b lb).
Proof.
  intros Hb (Hev & Hw & Hr). unfold same_but_files, around_loop.
  rewrite Hr. destruct (out_res lb) as [success|e];
    cbn [out_events out_world out_res];
    rewrite !without_files_app, ?without_files_closing, Hb, Hev;
    repeat split; exact Hw.
Qed.


(** Every frame submitted to the collector has the timestamp
    [frameNumber * durationOneFrame_ns] of line 163. *)
Lemma submitted_frame_timestamp
    video videofaces output_exists pressed videoPath facePath studyPath output
    pre frame result post :
  out_events (run E video videofaces output_exists pressed
                  videoPath facePath studyPath output)
    = pre ++ EvExtractChannels frame result :: post ->
  exists n,
    float_of_int (vf_number (fr_video frame)) = Ok n
    /\ truediv 1000000000 (CAP_PROP_FPS video)
       = Ok (1000000000 / CAP_PROP_FPS video)%float
    /\ vf_timestamp_ns (fr_video frame)
       = (n * (1000000000 / CAP_PROP_FPS video))%float.
Proof.
  set (P := fun (_ : option exn) (ev : Event Image) (_ : list (Event Image)) =>
              match ev with
              | EvExtractChannels f _ =>
                  exists n,
                    float_of_int (vf_number (fr_video f)) = Ok n
                    /\ truediv 1000000000 (CAP_PROP_FPS video)
                       = Ok (1000000000 / CAP_PROP_FPS video)%float
                    /\ vf_timestamp_ns (fr_video f)
                       = (n * (1000000000 / CAP_PROP_FPS video))%float
              | _ => True
              end).
  intros Htrace.
  refine (run_each_event P video videofaces output_exists pressed
            videoPath facePath studyPath output _ _ pre _ post Htrace).
  - intros r [] ? Hst; try destruct Hst; exact I.
  - intros d frames numberChunks pics w Hsettings.
    assert (Hd : truediv 1000000000 (CAP_PROP_FPS video)
                 = Ok (1000000000 / CAP_PROP_FPS video)%float
                 /\ d = (1000000000 / CAP_PROP_FPS video)%float).
    { revert Hsettings. unfold settings, truediv.
      destruct (PrimFloat.eqb (CAP_PROP_FPS video) 0); [discriminate|].
      cbn [and_then].
      destruct (int_of_float _); [|discriminate]. cbn [and_then].
      destruct (videoDuration_s_of _ _); [|discriminate]. cbn [and_then].
      destruct (numberChunks_of _); [|discriminate]. cbn [and_then].
      intros [= <- _ _]. split; reflexivity. }
    destruct Hd as [Hdiv ->]. clear Hsettings.
    apply loop_each_event.
    + intros w'. rewrite videoEnded_eq. cbv zeta. unfold full_trace.
      cbn [out_events out_res app]. chunk_cases; cbn; walk; exact I.
    + intros [|]; cbn; walk; exact I.
    + intros image pos_frames w' tail r. iteration_paths; intros Htail;
        chunk_cases; walk; try exact I;
        unfold P; rewrite buildFrame_number, buildFrame_timestamp;
        eexists; (split; [eassumption|split; [exact Hdiv|reflexivity]]).
Qed.

(** C4, amended.  Every frame submitted to the collector has the timestamp
    [frameNumber * durationOneFrame_ns] of line 163: the binary64 product
    of its frame number, converted to a float, and the binary64 quotient
    [1000000000.0 / targetFPS].  When that quotient is positive and finite,
    the timestamps never decrease as the frame number grows: a submitted
    frame whose number is non-negative has a timestamp at most that of any
    submitted frame with a number at least as large. *)
Theorem timestamp_is_index_times_frame_duration
    video videofaces output_exists pressed videoPath facePath studyPath output
    pre frame result post :
  out_events (run E video videofaces output_exists pressed
                  videoPath facePath studyPath output)
    = pre ++ EvExtractChannels frame result :: post ->
  (exists n,
     float_of_int (vf_number (fr_video frame)) = Ok n
     /\ truediv 1000000000 (CAP_PROP_FPS video)
        = Ok (1000000000 / CAP_PROP_FPS video)%float
     /\ vf_timestamp_ns (fr_video frame)
        = (n * (1000000000 / CAP_PROP_FPS video))%float)
  /\ (PrimFloat.ltb 0 (1000000000 / CAP_PROP_FPS video) = true ->
      PrimFloat.ltb (1000000000 / CAP_PROP_FPS video) infinity = true ->
      forall later result',
        In (EvExtractChannels later result')
           (out_events (run E video videofaces output_exists pressed
                            videoPath facePath studyPath output)) ->
        0 <= vf_number (fr_video frame) <= vf_number (fr_video later) ->
        PrimFloat.leb (vf_timestamp_ns (fr_video frame))
                      (vf_timestamp_ns (fr_video later)) = true).
Proof.
  intros Htrace.
  destruct (submitted_frame_timestamp _ _ _ _ _ _ _ _ _ _ _ _ Htrace)
    as (n & Hn & Hdiv & Hts).
  split; [exists n; auto|].
  intros Hpos Hfin later result' Hin Hle.
  apply List.in_split in Hin as (pre' & post' & Hlater).
  destruct (submitted_frame_timestamp _ _ _ _ _ _ _ _ _ _ _ _ Hlater)
    as (n' & Hn' & _ & Hts').
  rewrite Hts, Hts'.
  exact (timestamps_monotone _ _ n n' _ Hle Hn Hn' Hpos Hfin).
Qed.

End Claims.

(** ** The claims on the sample runs *)

(** C1 as stated fails.  In [error_run] the only submit returns [ERROR];
    the script then reads again, finds the video ended, calls [getChunkData]
    and reports the collection as finished. *)
Lemma error_does_not_stop_the_run : ~ stops_on_error (out_events error_run).
Proof.
  intros H.
  destruct (H (firstn 11 (out_events error_run)) (sample_frame 30 1 1)
              (skipn 12 (out_events error_run)))
    as (Hread & _); [vm_compute; reflexivity|].
  apply (Hread None). vm_compute. left. reflexivity.
Qed.

Lemma error_result_goes_on_witness :
  out_events error_run
  = firstn 11 (out_events error_run)
    ++ EvExtractChannels (sample_frame 30 1 1) ERROR
    :: skipn 12 (out_events error_run)
  /\ goes_on 1 (skipn 12 (out_events error_run)).
Proof.
  split; [vm_compute; reflexivity|].
  apply (error_result_goes_on
           (E := Scripted COLLECTING true [ERROR] [])
           (video_of 30 [1%float]) (faces_for [1]) false []
           "clip.mp4" "faces.json" "study.dat" None
           (firstn 11 (out_events error_run)) (sample_frame 30 1 1)
           (skipn 12 (out_events error_run))).
  vm_compute. reflexivity.
Defined.



(** C4 as stated fails.  In [chunk_run], at 30 frames per second, the
    frame duration is 33333333.333333332 ns; frames 2 and 3 get the
    timestamps 66666666.666666664 and 100000000.0, whose binary64 difference
    is 33333333.333333336, and whose difference as numbers is neither the
    frame duration nor [1e9 / 30]. *)
Lemma timestamps_not_evenly_spaced :
  ~ evenly_spaced (differ_by (1000000000 / 30)) (out_events chunk_run)
  /\ ~ evenly_spaced (differ_by_exactly 30) (out_events chunk_run)
  /\ ~ evenly_spaced (fun a b =>
                        match value a, value b, value (1000000000 / 30)%float with
                        | Some x, Some y, Some d => Qeq (Qminus y x) d
                        | _, _, _ => False
                        end) (out_events chunk_run).
Proof.
  repeat split; intros H;
    specialize (H 1%nat (sample_frame 30 2 2) (sample_frame 30 3 3)
                  ltac:(vm_compute; reflexivity) ltac:(vm_compute; reflexivity)
                  ltac:(vm_compute; reflexivity));
    vm_compute in H; discriminate H.
Qed.

Lemma timestamp_is_index_times_frame_duration_witness :
  out_events chunk_run
  = firstn 15 (out_events chunk_run)
    ++ EvExtractChannels (sample_frame 30 2 2) CHUNKREADY
    :: skipn 16 (out_events chunk_run)
  /\ (exists n,
        float_of_int 2 = Ok n
        /\ truediv 1000000000 30 = Ok (1000000000 / 30)%float
        /\ vf_timestamp_ns (fr_video (sample_frame 30 2 2))
           = (n * (1000000000 / 30))%float)
  /\ PrimFloat.leb (vf_timestamp_ns (fr_video (sample_frame 30 2 2)))
                   (vf_timestamp_ns (fr_video (sample_frame 30 3 3))) = true.
Proof.
  split; [vm_compute; reflexivity|].
  destruct (timestamp_is_index_times_frame_duration
              (E := Scripted COLLECTING true [COLLECTING; CHUNKREADY; COLLECTING]
                             [Some sample_chunk; Some sample_chunk])
              (video_of 30 [1%float; 2%float; 3%float]) (faces_for [1; 2; 3])
              false [] "clip.mp4" "faces.json" "study.dat" (Some "out")
              (firstn 15 (out_events chunk_run)) (sample_frame 30 2 2) CHUNKREADY
              (skipn 16 (out_events chunk_run)))
    as [Hproduct Hlater].
  - vm_compute. reflexivity.
  - split; [exact Hproduct|].
    apply (Hlater ltac:(vm_compute; reflexivity) ltac:(vm_compute; reflexivity)
                  (sample_frame 30 3 3) COLLECTING).
    + apply (List.nth_error_In _ 23). vm_compute. reflexivity.
    + vm_compute. split; discriminate.
Defined.

Lemma missing_annotation_raises_witness :
  out_events missing_run
  = firstn 13 (out_events missing_run) ++ EvRead (Some (0%nat, 2%float))
    :: skipn 14 (out_events missing_run)
  /\ int_of_float 2 = Ok 2
  /\ faces_for [1] !! str 2 = None
  /\ out_res missing_run = Raise (KeyError (str 2))
  /\ skipn 14 (out_events missing_run) = [].
Proof.
  split; [vm_compute; reflexivity|].
  split; [vm_compute; reflexivity|].
  split; [vm_compute; reflexivity|].
  apply (missing_annotation_raises
           (E := Scripted COLLECTING true [] [])
           (video_of 30 [1%float; 2%float]) (faces_for [1])
           false [] "clip.mp4" "faces.json" "study.dat" (Some "out")
           (firstn 13 (out_events missing_run)) 0%nat 2%float
           (skipn 14 (out_events missing_run)) 2).
  - vm_compute. reflexivity.
  - vm_compute. reflexivity.
  - vm_compute. reflexivity.
Defined.

(** C6 as stated fails.  In [missing_run] the capture is opened, the second
    picture has no face, [KeyError] leaves [doExtraction], and [release] has
    not been called. *)
Lemma capture_not_released_on_exception :
  out_res missing_run = Raise (KeyError "2")
  /\ ~ released_if_opened (out_events missing_run).
Proof.
  split; [vm_compute; reflexivity|].
  intros H.
  assert (Hin : In EvRelease (out_events missing_run)).
  { apply H. exists "clip.mp4". vm_compute. tauto. }
  vm_compute in Hin. intuition discriminate.
Qed.

Lemma capture_released_when_returning_witness :
  out_res chunk_run = Ok tt
  /\ (exists pre success, out_events chunk_run = pre ++ closing success)
  /\ out_events chunk_run
     = firstn 31 (out_events chunk_run) ++ EvRelease :: skipn 32 (out_events chunk_run)
  /\ skipn 32 (out_events chunk_run) = [EvDestroyAllWindows].
Proof.
  pose proof (capture_released_when_returning
                (E := Scripted COLLECTING true [COLLECTING; CHUNKREADY; COLLECTING]
                               [Some sample_chunk; Some sample_chunk])
                (video_of 30 [1%float; 2%float; 3%float]) (faces_for [1; 2; 3])
                false [] "clip.mp4" "faces.json" "study.dat" (Some "out"))
    as [Hreturn Hrelease].
  assert (Hres : out_res chunk_run = Ok tt) by (vm_compute; reflexivity).
  assert (Htrace : out_events chunk_run
                   = firstn 31 (out_events chunk_run) ++ EvRelease
                     :: skipn 32 (out_events chunk_run))
    by (vm_compute; reflexivity).
  split; [exact Hres|]. split; [exact (Hreturn Hres)|]. split; [exact Htrace|].
  exact (proj2 (Hrelease _ _ Htrace)).
Defined.

(** C7 as stated fails.  In [unpolled_run] the picture has number 1: the
    keyboard is not polled in its iteration, and although [q] is held down
    the run ends with the final [getChunkData] and is reported as finished. *)
Lemma keyboard_not_polled_every_iteration :
  ~ polled_every_iteration (out_events unpolled_run)
  /\ In (EvGetChunkData None) (out_events unpolled_run)
  /\ In (EvPrint MsgFinished) (out_events unpolled_run)
  /\ forall key, ~ In (EvWaitKey key) (out_events unpolled_run).
Proof.
  split; [|split; [|split]].
  - intros H.
    specialize (H (firstn 9 (out_events unpolled_run)) (0%nat, 1%float)
                  (skipn 10 (out_events unpolled_run))
                  ltac:(vm_compute; reflexivity)).
    vm_compute in H. discriminate H.
  - vm_compute. tauto.
  - vm_compute. tauto.
  - intros key Hin. vm_compute in Hin. intuition discriminate.
Qed.

Lemma key_test_every_tenth_frame_witness :
  key_checks (skipn 12 (out_events q_run)) = 1%nat
  /\ skipn 14 (out_events q_run) = closing false.
Proof.
  pose proof (key_test_every_tenth_frame
                (E := Scripted COLLECTING true [] [])
                (video_of 30 [10%float; 11%float]) (faces_for [10; 11])
                false [113] "clip.mp4" "faces.json" "study.dat" None)
    as [Hchecks Hkey].
  split.
  - exact (Hchecks (firstn 11 (out_events q_run)) (sample_frame 30 10 10) COLLECTING
                   (skipn 12 (out_events q_run)) ltac:(vm_compute; reflexivity)).
  - exact (Hkey (firstn 13 (out_events q_run)) 113
                (skipn 14 (out_events q_run)) ltac:(vm_compute; reflexivity)).
Defined.

Lemma zero_frame_rate_raises_witness :
  closed_run
  = mkOut (opening "clip.mp4" "study.dat")
          {| collector := createCollector (Scripted COLLECTING true [] []); keys := [] |}
          (Raise ZeroDivisionError)
  /\ truediv 1000000000 30 = Ok (1000000000 / 30)%float.
Proof.
  split.
  - apply (proj1 (zero_frame_rate_raises
                    (E := Scripted COLLECTING true [] [])
                    (video_of 0 []) (faces_for [])
                    false [] "clip.mp4" "faces.json" "study.dat" None)).
    + vm_compute. reflexivity.
    + reflexivity.
    + discriminate.
  - apply (proj2 (zero_frame_rate_raises
                    (E := Scripted COLLECTING true [] [])
                    (video_of 30 [1%float]) (faces_for [1])
                    false [] "clip.mp4" "faces.json" "study.dat" None)).
    vm_compute. reflexivity.
Defined.


(** ** Further properties of the script *)

Section Further.

Context {Image : Type} {E : Engine Image}.

Implicit Types (video : Video Image) (videofaces : gmap string JsonFace)
  (pressed : list Z) (output : option string) (w : World E).

Lemma buildFrame_faces (image : Image) frameNumber timestamp jsonFace :
  fr_faces (buildFrame image frameNumber timestamp jsonFace) = [createDFXFace jsonFace].
Proof. unfold buildFrame. destruct (frameNumber =? 1000); reflexivity. Qed.

Lemma buildFrame_video (image : Image) frameNumber timestamp jsonFace :
  fr_video (buildFrame image frameNumber timestamp jsonFace)
  = {| vf_image := image; vf_number := frameNumber;
       vf_timestamp_ns := timestamp; vf_order := CHANNEL_ORDER_BGR |}.
Proof. unfold buildFrame. destruct (frameNumber =? 1000); reflexivity. Qed.



(** X9.  What follows a submit (lines 181-195).  On [CHUNKREADY] the chunk
    is retrieved and handled, and the loop goes on; on [COMPLETED] the chunk
    is retrieved and handled, the completion is printed, and the run ends as
    finished with no further [read()]; on any other result no chunk is
    retrieved and the loop goes on. *)
Theorem chunk_retrieved_when_ready
    video videofaces output_exists pressed videoPath facePath studyPath output
    pre frame result post :
  let o := run E video videofaces output_exists pressed
               videoPath facePath studyPath output in
  out_events o = pre ++ EvExtractChannels frame result :: post ->
  match result with
  | CHUNKREADY =>
      exists chunkData rest,
        post = EvGetChunkData chunkData :: gotChunkData_events output chunkData ++ rest
        /\ goes_on (vf_number (fr_video frame)) rest
  | COMPLETED =>
      out_res o = Ok tt
      /\ exists chunkData,
           post = EvGetChunkData chunkData :: gotChunkData_events output chunkData
                  ++ EvPrint (MsgCompletedAt (vf_number (fr_video frame)))
                  :: closing true
  | _ => goes_on (vf_number (fr_video frame)) post
  end.
Proof.
  set (P := fun (r : option exn) (ev : Event Image) (post : list (Event Image)) =>
              match ev with
              | EvExtractChannels frame result =>
                  match result with
                  | CHUNKREADY =>
                      exists chunkData rest,
                        post = EvGetChunkData chunkData
                               :: gotChunkData_events output chunkData ++ rest
                        /\ goes_on (vf_number (fr_video frame)) rest
                  | COMPLETED =>
                      r = None
                      /\ exists chunkData,
                           post = EvGetChunkData chunkData
                                  :: gotChunkData_events output chunkData
                                  ++ EvPrint (MsgCompletedAt (vf_number (fr_video frame)))
                                  :: closing true
                  | _ => goes_on (vf_number (fr_video frame)) post
                  end
              | _ => True
              end).
  cbv zeta. intros Htrace.
  enough (HP : P (raised (run E video videofaces output_exists pressed
                              videoPath facePath studyPath output))
                 (EvExtractChannels frame result) post).
  { unfold P, raised in HP. destruct result; try exact HP.
    destruct HP as [Hr HP]. split; [|exact HP].
    destruct (out_res _) as [[]|e]; [reflexivity|discriminate Hr]. }
  refine (run_each_event P video videofaces output_exists pressed
            videoPath facePath studyPath output _ _ pre _ post Htrace).
  - intros r [] ? Hst; try destruct Hst; exact I.
  - intros d frames numberChunks pics w _. apply loop_each_event.
    + intros w'. rewrite videoEnded_eq. cbv zeta. unfold full_trace.
      cbn [out_events out_res app]. chunk_cases; cbn; walk; exact I.
    + intros [|]; cbn; walk; exact I.
    + intros image' pos' w' tail r. iteration_paths; intros Htail.
      all: try (walk; exact I).
      all: apply each_event_cons; split; [exact I|].
      all: apply each_event_cons; split; [exact I|].
      all: apply each_event_cons; split;
        [|chunk_cases; walk; exact I].
      all: unfold P; rewrite buildFrame_number; cbn [app].
      all: try (destruct Htail as [-> ->]; split; [reflexivity|];
                eexists; rewrite <- app_assoc; reflexivity).
      all: try lazymatch goal with
        | |- exists c rest,
               EvGetChunkData ?c0 :: (gotChunkData_events _ ?c0 ++ ?l) ++ ?t = _ /\ _ =>
            exists c0, (l ++ t); split; [rewrite <- app_assoc; reflexivity|]
        | |- exists c rest,
               EvGetChunkData ?c0 :: gotChunkData_events _ ?c0 ++ ?t = _ /\ _ =>
            exists c0, t; split; [reflexivity|]
        end.
      all: cbn [app goes_on]; rewrite ?Hkey;
        try change (Z.land (-1) 255 =? 113) with false; cbv iota.
      all: first
        [ destruct Htail as (p & tl & ->);
          first [apply Z.eqb_neq, Hmod
                |split; [apply Z.eqb_eq, Hmod|eauto]]
        | destruct Htail as [-> ->]; split; [apply Z.eqb_eq, Hmod|reflexivity] ].
Qed.


Lemma settings_frames video d frames numberChunks :
  settings video = Ok (d, frames, numberChunks) ->
  truediv 1000000000 (CAP_PROP_FPS video) = Ok d
  /\ int_of_float (CAP_PROP_FRAME_COUNT video) = Ok frames.
Proof.
  unfold settings.
  destruct (truediv 1000000000 (CAP_PROP_FPS video)) as [d'|]; [|discriminate].
  cbn [and_then].
  destruct (int_of_float _) as [frames'|]; [|discriminate]. cbn [and_then].
  destruct (videoDuration_s_of _ _); [|discriminate]. cbn [and_then].
  destruct (numberChunks_of _); [|discriminate]. cbn [and_then].
  intros [= <- <- _]. split; reflexivity.
Qed.

(** X10.  The overlay (lines 197-220) is shown after the submit of a frame
    exactly when the frame number is a multiple of 10 and the result is not
    [COMPLETED]; its text names the base name of the video path, the frame
    number and the frame count of the capture. *)
Theorem overlay_every_tenth_frame
    video videofaces output_exists pressed videoPath facePath studyPath output
    pre frame result post :
  out_events (run E video videofaces output_exists pressed
                  videoPath facePath studyPath output)
    = pre ++ EvExtractChannels frame result :: post ->
  exists total,
    int_of_float (CAP_PROP_FRAME_COUNT video) = Ok total
    /\ overlay_shown post
       = if (vf_number (fr_video frame) mod 10 =? 0)
            && negb (CollectorState_eqb result COMPLETED)
         then Some (os_path_basename videoPath, vf_number (fr_video frame), total)
         else None.
Proof.
  set (P := fun (_ : option exn) (ev : Event Image) (post : list (Event Image)) =>
              match ev with
              | EvExtractChannels frame result =>
                  exists total,
                    int_of_float (CAP_PROP_FRAME_COUNT video) = Ok total
                    /\ overlay_shown post
                       = if (vf_number (fr_video frame) mod 10 =? 0)
                            && negb (CollectorState_eqb result COMPLETED)
                         then Some (os_path_basename videoPath,
                                    vf_number (fr_video frame), total)
                         else None
              | _ => True
              end).
  intros Htrace.
  refine (run_each_event P video videofaces output_exists pressed
            videoPath facePath studyPath output _ _ pre _ post Htrace).
  - intros r [] ? Hst; try destruct Hst; exact I.
  - intros d frames numberChunks pics w Hsettings.
    apply settings_frames in Hsettings as [_ Hframes].
    apply loop_each_event.
    + intros w'. rewrite videoEnded_eq. cbv zeta. unfold full_trace.
      cbn [out_events out_res app]. chunk_cases; cbn; walk; exact I.
    + intros [|]; cbn; walk; exact I.
    + intros image' pos' w' tail r. iteration_paths; intros Htail;
        chunk_cases; walk; try exact I;
        unfold P; rewrite buildFrame_number; exists frames;
        (split; [exact Hframes|]);
        cbn [app overlay_shown]; rewrite ?Hmod;
        cbn [andb negb CollectorState_eqb];
        try reflexivity;
        try (destruct Htail as (p & tl & ->); reflexivity);
        try (destruct Htail as [-> _]; reflexivity).
Qed.


Lemma last_cons_Some {A} (a x : A) l : last l = Some x -> last (a :: l) = Some x.
Proof. destruct l; [discriminate|]. intros H. exact H. Qed.

Lemma last_app_Some {A} (x : A) l1 l2 : last l2 = Some x -> last (l1 ++ l2) = Some x.
Proof.
  intros H. apply last_Some in H as [pre ->].
  rewrite app_assoc. apply last_snoc.
Qed.

(** An exception leaves the loop right after a [read()]: from [int()] of
    the position, or from the lookup of the annotation. *)
Lemma loop_raises videofaces output durationOneFrame_ns videoFileName
    videoDuration_frames pics w e :
  let lo := loop videofaces output durationOneFrame_ns videoFileName
                 videoDuration_frames pics w in
  out_res lo = Raise e ->
  exists image pos_frames,
    last (out_events lo) = Some (EvRead (Some (image, pos_frames)))
    /\ match int_of_float pos_frames with
       | Raise e' => e = e'
       | Ok frameNumber =>
           videofaces !! str frameNumber = None /\ e = KeyError (str frameNumber)
       end.
Proof.
  cbv zeta. revert w. induction pics as [|[image pos_frames] rest IH]; intros w.
  - rewrite loop_nil, videoEnded_eq. cbv zeta. cbn [out_res]. discriminate.
  - rewrite loop_cons. cbv zeta. iteration_paths.
    all: try discriminate.
    all: try (intros Hres; destruct (IH _ Hres) as (image0 & pos0 & Hlast & Hwhy);
              exists image0, pos0; split; [|exact Hwhy];
              repeat first [apply last_cons_Some|apply last_app_Some]; exact Hlast).
    + intros [= <-]. exists image, pos_frames. rewrite Hposition. auto.
    + destruct (float_of_int_of_float _ _ Hposition) as (f & Hf); congruence.
    + intros [= <-]. exists image, pos_frames. rewrite Hposition. auto.
Qed.


(** Lines 112-119 raise [ZeroDivisionError] only for a frame rate of zero,
    and otherwise only what [int()] and [math.ceil] raise. *)
Lemma settings_raises video e :
  settings video = Raise e ->
  match e with
  | ZeroDivisionError => PrimFloat.eqb (CAP_PROP_FPS video) 0 = true
  | ValueError | OverflowError => True
  | _ => False
  end.
Proof.
  unfold settings, videoDuration_s_of, numberChunks_of, truediv.
  destruct (PrimFloat.eqb (CAP_PROP_FPS video) 0) eqn:Hzero;
    cbn [and_then]; [intros [= <-]; reflexivity|].
  destruct (int_of_float (CAP_PROP_FRAME_COUNT video)) as [frames|e'] eqn:Hcount;
    cbn [and_then].
  - destruct (float_of_int_of_float _ _ Hcount) as (n & ->). cbn [and_then].
    change (float_of_int chunkDuration_s) with (Ok 5%float). cbn [and_then].
    change (PrimFloat.eqb 5 0) with false. cbv iota. cbn [and_then].
    unfold ceil. destruct (Prim2SF _); try discriminate; intros [= <-]; exact I.
  - revert Hcount. unfold int_of_float.
    destruct (Prim2SF _); try discriminate; intros [= <-] [= <-]; exact I.
Qed.

Lemma int_of_float_raises x e :
  int_of_float x = Raise e -> e = ValueError \/ e = OverflowError.
Proof.
  unfold int_of_float. destruct (Prim2SF x); try discriminate; intros [= <-]; auto.
Qed.

(** Where an exception can leave [doExtraction]: at the two start-up
    checks, in lines 112-119 before anything is configured, or in the loop
    right after a [read()]. *)
Lemma run_raises
    video videofaces output_exists pressed videoPath facePath studyPath output e :
  let o := run E video videofaces output_exists pressed
               videoPath facePath studyPath output in
  out_res o = Raise e ->
  (e = SystemExit 1
   /\ (initializeStudyFromFile E studyPath = false
       \/ getCollectorState E (createCollector E) = ERROR)
   /\ out_world o = {| collector := createCollector E; keys := pressed |}
   /\ Forall (fun ev => exists m, ev = EvPrint m) (out_events o))
  \/ (settings video = Raise e
      /\ out_events o = opening videoPath studyPath)
  \/ (In EvStartCollection (out_events o)
      /\ exists image pos_frames,
           last (out_events o) = Some (EvRead (Some (image, pos_frames)))
           /\ match int_of_float pos_frames with
              | Raise e' => e = e'
              | Ok frameNumber =>
                  videofaces !! str frameNumber = None
                  /\ e = KeyError (str frameNumber)
              end).
Proof.
  cbv zeta. rewrite run_eq. cbv zeta.
  destruct (initializeStudyFromFile E studyPath) eqn:Hstudy; cbn [negb].
  2: { intros [= <-]. left. cbn. repeat split; auto. repeat constructor; eauto. }
  destruct (CollectorState_eqb _ ERROR) eqn:Hstate.
  { intros [= <-]. left. cbn. repeat split.
    - right. destruct (getCollectorState E (createCollector E));
        try discriminate Hstate; reflexivity.
    - repeat constructor; eauto. }
  destruct (settings video) as [[[d frames] numberChunks]|e'] eqn:Hsettings.
  2: { intros [= <-]. right. left. split; reflexivity. }
  rewrite around_loop_res, around_loop_events.
  destruct (out_res (loop _ _ _ _ _ _ _)) as [success|e'] eqn:Hloop; [discriminate|].
  intros [= <-]. right. right. split.
  - apply in_or_app. left. apply in_or_app. right. unfold configuration.
    apply in_or_app. right. apply in_or_app. right. left. reflexivity.
  - destruct (loop_raises _ _ _ _ _ _ _ _ Hloop) as (image & pos & Hlast & Hwhy).
    exists image, pos. split; [|exact Hwhy].
    apply last_app_Some. unfold full_trace. rewrite Hloop, app_nil_r. exact Hlast.
Qed.

(** X1.  [doExtraction] calls [sys.exit] exactly when the study cannot be
    initialised or the collector is created in state [ERROR] (lines 73-84):
    the exit status is then 1, only messages have been printed, the capture
    has not been opened and the collector has not been configured.  Nothing
    after these two checks raises [SystemExit]. *)
Theorem exit_only_at_startup
    video videofaces output_exists pressed videoPath facePath studyPath output :
  let o := run E video videofaces output_exists pressed
               videoPath facePath studyPath output in
  ((exists code, out_res o = Raise (SystemExit code))
   <-> initializeStudyFromFile E studyPath = false
       \/ getCollectorState E (createCollector E) = ERROR)
  /\ (forall code,
        out_res o = Raise (SystemExit code) ->
        code = 1
        /\ out_world o = {| collector := createCollector E; keys := pressed |}
        /\ Forall (fun ev => exists m, ev = EvPrint m) (out_events o)).
Proof.
  cbv zeta.
  assert (Hexit : forall code,
            out_res (run E video videofaces output_exists pressed
                         videoPath facePath studyPath output)
            = Raise (SystemExit code) ->
            code = 1
            /\ (initializeStudyFromFile E studyPath = false
                \/ getCollectorState E (createCollector E) = ERROR)
            /\ out_world (run E video videofaces output_exists pressed
                              videoPath facePath studyPath output)
               = {| collector := createCollector E; keys := pressed |}
            /\ Forall (fun ev => exists m, ev = EvPrint m)
                      (out_events (run E video videofaces output_exists pressed
                                       videoPath facePath studyPath output))).
  { intros code Hres.
    destruct (run_raises _ _ _ _ _ _ _ _ _ Hres)
      as [([= ->] & Hwhy & Hworld & Hprints)
         |[[Hsettings _]|(_ & image & pos & _ & Hwhy)]].
    - auto.
    - destruct (settings_raises _ _ Hsettings).
    - destruct (int_of_float pos) as [n|e'] eqn:Hpos.
      + destruct Hwhy as [_ Hwhy]. discriminate Hwhy.
      + subst e'. destruct (int_of_float_raises _ _ Hpos); discriminate. }
  split.
  - split.
    + intros [code Hres]. apply (Hexit code Hres).
    + rewrite run_eq. cbv zeta. intros [->| ->]; cbn [negb CollectorState_eqb].
      * eexists. reflexivity.
      * destruct (initializeStudyFromFile E studyPath); eexists; reflexivity.
  - intros code Hres. destruct (Hexit code Hres) as (? & _ & ? & ?). auto.
Qed.

(** X3.  A run that ends with [ZeroDivisionError] had a frame rate equal
    to zero and stopped at line 112, right after [cv2.VideoCapture]: the
    divisions of lines 117 and 118 never raise it, and neither does the
    loop. *)
Theorem zero_division_means_zero_rate
    video videofaces output_exists pressed videoPath facePath studyPath output :
  let o := run E video videofaces output_exists pressed
               videoPath facePath studyPath output in
  out_res o = Raise ZeroDivisionError ->
  PrimFloat.eqb (CAP_PROP_FPS video) 0 = true
  /\ out_events o = opening videoPath studyPath.
Proof.
  cbv zeta. intros Hres.
  destruct (run_raises _ _ _ _ _ _ _ _ _ Hres)
    as [([=] & _)|[[Hsettings Hevents]|(_ & image & pos & _ & Hwhy)]].
  - split; [exact (settings_raises _ _ Hsettings)|exact Hevents].
  - destruct (int_of_float pos) as [n|e'] eqn:Hpos.
    + destruct Hwhy as [_ Hwhy]. discriminate Hwhy.
    + subst e'. destruct (int_of_float_raises _ _ Hpos); discriminate.
Qed.



(** How the loop returns: at the end of the video, at [COMPLETED], or at
    the [q] key. *)
Lemma loop_returns videofaces output durationOneFrame_ns videoFileName
    videoDuration_frames pics w success :
  let lo := loop videofaces output durationOneFrame_ns videoFileName
                 videoDuration_frames pics w in
  out_res lo = Ok success ->
  (success = true
   /\ exists chunkData,
        (EvRead None :: EvGetChunkData chunkData
           :: gotChunkData_events output chunkData)
        `suffix_of` out_events lo)
  \/ (success = true
      /\ exists frame chunkData,
           (EvExtractChannels frame COMPLETED :: EvGetChunkData chunkData
              :: gotChunkData_events output chunkData
              ++ [EvPrint (MsgCompletedAt (vf_number (fr_video frame)))])
           `suffix_of` out_events lo)
  \/ (success = false
      /\ exists key,
           Z.land key 255 = 113
           /\ [EvWaitKey key] `suffix_of` out_events lo).
Proof.
  cbv zeta. revert w. induction pics as [|[image pos_frames] rest IH]; intros w.
  - rewrite loop_nil, videoEnded_eq. cbv zeta. cbn [out_res out_events].
    intros [= <-]. left. split; [reflexivity|]. eexists. reflexivity.
  - rewrite loop_cons. cbv zeta. iteration_paths.
    all: try discriminate.
    all: try (intros Hres;
              destruct (IH _ Hres)
                as [(-> & c & Hend)|[(-> & f & c & Hend)|(-> & key & Hkey' & Hend)]];
              [left; split; [reflexivity|]; exists c
              |right; left; split; [reflexivity|]; exists f, c
              |right; right; split; [reflexivity|]; exists key; split; [exact Hkey'|]];
              repeat first [exact Hend|apply suffix_cons_r|apply suffix_app_r]).
    all: intros [= <-].
    all: try (right; right; split; [reflexivity|]; exists k;
              split; [apply Z.eqb_eq, Hkey|];
              repeat first [reflexivity|apply suffix_cons_r|apply suffix_app_r]).
    all: right; left; split; [reflexivity|]; eexists _, _;
      rewrite buildFrame_number;
      do 2 apply suffix_cons_r; reflexivity.
Qed.

(** X12.  A run that returns ended in one of three ways: at the end of the
    video, after the last chunk was retrieved and handled; at [COMPLETED],
    after the chunk and the completion message; or at a key test that read
    [q].  The first two report the collection as finished, the third as
    interrupted. *)
Theorem three_ways_to_return
    video videofaces output_exists pressed videoPath facePath studyPath output :
  let o := run E video videofaces output_exists pressed
               videoPath facePath studyPath output in
  out_res o = Ok tt ->
  (exists chunkData,
     (EvRead None :: EvGetChunkData chunkData
        :: gotChunkData_events output chunkData ++ closing true)
     `suffix_of` out_events o)
  \/ (exists frame chunkData,
        (EvExtractChannels frame COMPLETED :: EvGetChunkData chunkData
           :: gotChunkData_events output chunkData
           ++ EvPrint (MsgCompletedAt (vf_number (fr_video frame)))
           :: closing true)
        `suffix_of` out_events o)
  \/ (exists key,
        Z.land key 255 = 113
        /\ (EvWaitKey key :: closing false) `suffix_of` out_events o).
Proof.
  cbv zeta. rewrite run_eq. cbv zeta.
  destruct (negb _); [discriminate|].
  destruct (CollectorState_eqb _ _); [discriminate|].
  destruct (settings video) as [[[d frames] numberChunks]|e]; [|discriminate].
  rewrite around_loop_res, around_loop_events. unfold full_trace.
  destruct (out_res (loop _ _ _ _ _ _ _)) as [success|e] eqn:Hloop; [|discriminate].
  intros _.
  destruct (loop_returns _ _ _ _ _ _ _ _ Hloop)
    as [(-> & c & Hend)|[(-> & f & c & Hend)|(-> & key & Hkey & Hend)]].
  - left. exists c. apply suffix_app_r.
    apply (suffix_app _ _ (closing true)) in Hend. exact Hend.
  - right. left. exists f, c. apply suffix_app_r.
    apply (suffix_app _ _ (closing true)) in Hend.
    cbn [app] in Hend. rewrite <- app_assoc in Hend. exact Hend.
  - right. right. exists key. split; [exact Hkey|]. apply suffix_app_r.
    apply (suffix_app _ _ (closing false)) in Hend. exact Hend.
Qed.


Lemma written_app (t1 t2 : list (Event Image)) :
  written (t1 ++ t2) = written t1 ++ written t2.
Proof.
  induction t1 as [|[] t1 IH]; cbn [app written]; rewrite ?IH; reflexivity.
Qed.

Lemma retrieved_app (t1 t2 : list (Event Image)) :
  retrieved (t1 ++ t2) = retrieved t1 ++ retrieved t2.
Proof.
  induction t1 as [|[| | | | | | | | | |[c|]| | | | |] t1 IH];
    cbn [app retrieved]; rewrite ?IH; reflexivity.
Qed.

(** [savePayload] writes the three files and nothing else. *)
Lemma savePayload_writes chunkPayload dir w :
  savePayload chunkPayload dir w
  = mkOut (map (fun f => EvWriteFile (fst f) (snd f)) (chunk_files dir chunkPayload))
          w (Ok tt).
Proof. reflexivity. Qed.

Lemma loop_written videofaces output durationOneFrame_ns videoFileName
    videoDuration_frames pics w :
  let lo := loop videofaces output durationOneFrame_ns videoFileName
                 videoDuration_frames pics w in
  written (out_events lo)
  = match output with
    | Some dir => flat_map (chunk_files dir) (retrieved (out_events lo))
    | None => []
    end.
Proof.
  cbv zeta. revert w. induction pics as [|[image pos_frames] rest IH]; intros w.
  - rewrite loop_nil, videoEnded_eq. cbv zeta. cbn [out_events].
    destruct (snd (getChunkData E (collector w))), output; reflexivity.
  - rewrite loop_cons. cbv zeta. iteration_paths.
    all: repeat match goal with
         | |- context [gotChunkData_events _ ?c] =>
             destruct c; cbn [gotChunkData_events savePayload_events app]
         end.
    all: cbn [written retrieved app flat_map];
      rewrite ?written_app, ?retrieved_app; cbn [written retrieved app];
      rewrite ?IH; destruct output; cbn [written retrieved app flat_map];
      rewrite ?flat_map_app; try reflexivity.
Qed.

(** X14.  With an output folder, the files written in a run are exactly
    the three files of each chunk that [getChunkData] returned, in the order
    of retrieval; an empty result of [getChunkData] is never saved.  Without
    an output folder nothing is written. *)
Theorem files_written_are_the_chunks
    video videofaces output_exists pressed videoPath facePath studyPath output :
  let o := run E video videofaces output_exists pressed
               videoPath facePath studyPath output in
  written (out_events o)
  = match output with
    | Some dir => flat_map (chunk_files dir) (retrieved (out_events o))
    | None => []
    end.
Proof.
  cbv zeta. rewrite run_eq. cbv zeta.
  destruct (negb _); [destruct output; reflexivity|].
  destruct (CollectorState_eqb _ _); [destruct output; reflexivity|].
  destruct (settings video) as [[[d frames] numberChunks]|e];
    [|destruct output; reflexivity].
  rewrite around_loop_events. unfold full_trace.
  set (lo := loop _ _ _ _ _ _ _).
  assert (Hbefore :
            written (opening (Image := Image) videoPath studyPath
                       ++ configuration (CAP_PROP_FPS video) numberChunks
                            output output_exists) = []
            /\ retrieved (opening (Image := Image) videoPath studyPath
                            ++ configuration (CAP_PROP_FPS video) numberChunks
                                 output output_exists) = []).
  { unfold configuration. destruct output as [dir|]; [destruct output_exists|];
      split; reflexivity. }
  assert (Hafter :
            written (match out_res lo with
                     | Ok success => closing (Image := Image) success
                     | Raise _ => []
                     end) = []
            /\ retrieved (match out_res lo with
                          | Ok success => closing (Image := Image) success
                          | Raise _ => []
                          end) = []).
  { destruct (out_res lo) as [[|]|e]; split; reflexivity. }
  destruct Hbefore as [Hw1 Hr1], Hafter as [Hw2 Hr2].
  rewrite written_app, retrieved_app, Hw1, Hr1. cbn [app].
  rewrite written_app, retrieved_app, Hw2, Hr2, !app_nil_r.
  apply loop_written.
Qed.


(** X2.  [createDFXFace] (lines 93-107) copies the id, the rectangle and
    the two flags of the annotation, and adds its pose points one by one, in
    the order of the JSON object. *)
Theorem createDFXFace_copies_the_annotation jsonFace :
  let face := createDFXFace jsonFace in
  face_id face = jf_id jsonFace
  /\ face_rect face
     = (jf_rect_x jsonFace, jf_rect_y jsonFace, jf_rect_w jsonFace, jf_rect_h jsonFace)
  /\ face_poseValid face = jf_poseValid jsonFace
  /\ face_detected face = jf_detected jsonFace
  /\ face_posePoints face = jf_points jsonFace.
Proof.
  cbv zeta. unfold createDFXFace.
  set (start := {| face_id := jf_id jsonFace;
                   face_rect := (jf_rect_x jsonFace, jf_rect_y jsonFace,
                                 jf_rect_w jsonFace, jf_rect_h jsonFace);
                   face_poseValid := jf_poseValid jsonFace;
                   face_detected := jf_detected jsonFace;
                   face_posePoints := [] |}).
  enough (Hfold : forall points face,
            let face' := fold_left (fun face pp => addPosePoint face (fst pp) (snd pp))
                                   points face in
            face_id face' = face_id face
            /\ face_rect face' = face_rect face
            /\ face_poseValid face' = face_poseValid face
            /\ face_detected face' = face_detected face
            /\ face_posePoints face' = face_posePoints face ++ points)
    by exact (Hfold (jf_points jsonFace) start).
  induction points as [|[pointId point] points IH]; intros face; cbv zeta.
  - cbn. rewrite app_nil_r. repeat split.
  - cbn [fold_left fst snd].
    destruct (IH (addPosePoint face pointId point)) as (H1 & H2 & H3 & H4 & H5).
    rewrite H1, H2, H3, H4, H5. cbn. rewrite <- app_assoc. repeat split.
Qed.

Lemma loop_no_setup videofaces output durationOneFrame_ns videoFileName
    videoDuration_frames pics w :
  Forall (fun ev => ~ setup_call ev)
         (full_trace (loop videofaces output durationOneFrame_ns videoFileName
                           videoDuration_frames pics w)).
Proof.
  set (P := fun (_ : option exn) (ev : Event Image) (_ : list (Event Image)) =>
              ~ setup_call ev).
  apply List.Forall_forall. intros ev Hin.
  eapply (each_event_In (P _)) in Hin as (post & HP); [exact HP|].
  apply loop_each_event.
  - intros w'. rewrite videoEnded_eq. cbv zeta. unfold full_trace.
    cbn [out_events out_res app]. chunk_cases; cbn; walk; intros [].
  - intros [|]; cbn; walk; intros [].
  - intros image pos_frames w' tail r. iteration_paths; intros Htail;
      chunk_cases; walk; intros [].
Qed.


Lemma submitted_frames_app (t1 t2 : list (Event Image)) :
  submitted_frames (t1 ++ t2) = submitted_frames t1 ++ submitted_frames t2.
Proof.
  induction t1 as [|[] t1 IH]; cbn [app submitted_frames]; rewrite ?IH; reflexivity.
Qed.

(** With every picture annotated, no [q] among the keys and a collector
    that never answers [COMPLETED], the loop submits every picture and ends
    at the end of the video. *)
Lemma loop_to_the_end videofaces output durationOneFrame_ns videoFileName
    videoDuration_frames pics w :
  Forall (fun picture =>
            exists frameNumber,
              int_of_float (snd picture) = Ok frameNumber
              /\ is_Some (videofaces !! str frameNumber)) pics ->
  Forall (fun key => Z.land key 255 <> 113) (keys w) ->
  (forall frame s, snd (extractChannels E frame s) <> COMPLETED) ->
  let lo := loop videofaces output durationOneFrame_ns videoFileName
                 videoDuration_frames pics w in
  out_res lo = Ok true
  /\ map (fun frame => (vf_image (fr_video frame), Ok (vf_number (fr_video frame))))
         (submitted_frames (out_events lo))
     = map (fun picture => (fst picture, int_of_float (snd picture))) pics.
Proof.
  cbv zeta. intros Hpics Hkeys' Hengine. revert w Hkeys'.
  induction Hpics as [|[image pos_frames] rest (number & Hnumber & Hsome) _ IH];
    intros w Hkeys'.
  - rewrite loop_nil, videoEnded_eq. cbv zeta. cbn [out_res out_events].
    split; [reflexivity|]. chunk_cases; reflexivity.
  - cbn [snd] in Hnumber. rewrite loop_cons. cbv zeta. iteration_paths.
    all: try discriminate Hnumber.
    all: try (destruct (float_of_int_of_float _ _ Hposition) as (f & Hf); congruence).
    all: injection Hnumber as <-.
    all: try (rewrite Hface in Hsome; destruct Hsome as [? Hsome]; discriminate Hsome).
    all: try (unfold submitted in Hresult; destruct (Hengine _ _ Hresult)).
    all: try (apply List.Forall_cons_iff in Hkeys' as [Hk Hks]).
    all: try (apply Z.eqb_eq in Hkey; destruct (Hk Hkey)).
    all: match goal with
         | |- context [loop _ _ _ _ _ _ ?w'] =>
             destruct (IH w') as [Hres Hframes];
             [cbn [keys]; first [assumption|constructor]|]
         end.
    all: split; [exact Hres|].
    all: chunk_cases; cbn [submitted_frames app map fst snd];
      rewrite ?submitted_frames_app; cbn [submitted_frames app map];
      rewrite Hframes, buildFrame_video; cbn [vf_image vf_number];
      rewrite Hposition; reflexivity.
Qed.


(** A frame rate that is not a number passes the zero test of the division
    and makes [math.ceil] raise. *)
Lemma settings_nan video frames :
  Prim2SF (CAP_PROP_FPS video) = S754_nan ->
  int_of_float (CAP_PROP_FRAME_COUNT video) = Ok frames ->
  settings video = Raise ValueError.
Proof.
  intros Hnan Hcount.
  unfold settings, videoDuration_s_of, numberChunks_of, truediv.
  assert (Hzero : PrimFloat.eqb (CAP_PROP_FPS video) 0 = false).
  { rewrite FloatAxioms.eqb_spec, Hnan. reflexivity. }
  rewrite Hzero, Hcount. cbn [and_then].
  destruct (float_of_int_of_float _ _ Hcount) as (n & ->). cbn [and_then].
  rewrite ?Hzero.
  change (float_of_int chunkDuration_s) with (Ok 5%float). cbn [and_then].
  change (PrimFloat.eqb 5 0) with false. cbv iota. cbn [and_then].
  unfold ceil. rewrite !FloatAxioms.div_spec, Hnan. unfold SF64div.
  destruct (Prim2SF n); reflexivity.
Qed.

(** X4.  A frame rate that is not a number passes the zero test of the
    division: [1000000000.0 / nan] is [nan], the duration in seconds is
    [nan], and [math.ceil] of line 118 raises [ValueError], after
    [cv2.VideoCapture] and before anything is configured. *)
Theorem nan_frame_rate_raises_ValueError
    video videofaces output_exists pressed videoPath facePath studyPath output frames :
  initializeStudyFromFile E studyPath = true ->
  getCollectorState E (createCollector E) <> ERROR ->
  Prim2SF (CAP_PROP_FPS video) = S754_nan ->
  int_of_float (CAP_PROP_FRAME_COUNT video) = Ok frames ->
  run E video videofaces output_exists pressed videoPath facePath studyPath output
  = mkOut (opening videoPath studyPath)
          {| collector := createCollector E; keys := pressed |}
          (Raise ValueError).
Proof.
  intros Hstudy Hstate Hnan Hcount. rewrite run_eq. cbv zeta.
  rewrite Hstudy. cbn [negb].
  destruct (CollectorState_eqb _ ERROR) eqn:Heqb.
  { destruct (getCollectorState E (createCollector E));
      try discriminate Heqb. destruct Hstate. reflexivity. }
  rewrite (settings_nan _ _ Hnan Hcount). reflexivity.
Qed.

(** A frame count of zero asks for zero chunks. *)
Lemma settings_empty video :
  PrimFloat.ltb 0 (CAP_PROP_FPS video) = true ->
  PrimFloat.ltb (CAP_PROP_FPS video) infinity = true ->
  int_of_float (CAP_PROP_FRAME_COUNT video) = Ok 0 ->
  settings video = Ok ((1000000000 / CAP_PROP_FPS video)%float, 0, 0).
Proof.
  intros Hpos Hfin Hcount.
  destruct (positive_finite _ Hpos Hfin) as (m & e & Hfps).
  unfold settings, videoDuration_s_of, numberChunks_of, truediv.
  assert (Hzero : PrimFloat.eqb (CAP_PROP_FPS video) 0 = false).
  { rewrite FloatAxioms.eqb_spec, Hfps. reflexivity. }
  rewrite Hzero, Hcount. cbn [and_then].
  change (float_of_int 0) with (Ok 0%float). cbn [and_then]. rewrite ?Hzero.
  change (float_of_int chunkDuration_s) with (Ok 5%float). cbn [and_then].
  change (PrimFloat.eqb 5 0) with false. cbv iota. cbn [and_then].
  unfold ceil. rewrite !FloatAxioms.div_spec, Hfps. unfold SF64div.
  reflexivity.
Qed.


End Further.

(** *** The names of the chunk files *)

Lemma length_append a b : String.length (a +:+ b) = (String.length a + String.length b)%nat.
Proof.
  induction a as [|c a IH]; [reflexivity|].
  change (S (String.length (a +:+ b)) = S (String.length a + String.length b)).
  rewrite IH. reflexivity.
Qed.

Lemma append_inj_r a b c : a +:+ c = b +:+ c -> a = b.
Proof.
  revert b. induction a as [|x a IH]; intros [|y b] Heq.
  - reflexivity.
  - apply (f_equal String.length) in Heq.
    change (String.length c = S (String.length (b +:+ c))) in Heq.
    rewrite length_append in Heq. lia.
  - apply (f_equal String.length) in Heq.
    change (S (String.length (a +:+ c)) = String.length c) in Heq.
    rewrite length_append in Heq. lia.
  - change (String x (a +:+ c) = String y (b +:+ c)) in Heq.
    injection Heq as -> Heq. f_equal. apply IH, Heq.
Qed.

Lemma os_path_join_inj dir a b : os_path_join dir a = os_path_join dir b -> a = b.
Proof.
  unfold os_path_join. destruct dir as [|c dir]; [auto|].
  destruct (ends_with_slash _); intros Heq.
  - exact (String.app_inj _ _ _ Heq).
  - apply String.app_inj in Heq. exact (String.app_inj _ _ _ Heq).
Qed.

Lemma chunk_file_name_inj stem n m ext :
  chunk_file_name stem n ext = chunk_file_name stem m ext -> n = m.
Proof.
  unfold chunk_file_name, str. intros Heq.
  apply String.app_inj, append_inj_r in Heq. exact (pretty_Z_inj _ _ Heq).
Qed.

(** X15.  The three files of a chunk have three different paths.  Two
    chunks with different chunk numbers share no path; two chunks with the
    same chunk number have the same three paths, so saving the later one
    overwrites the earlier. *)
Theorem chunk_files_collide_only_on_chunk_number dir p q :
  List.NoDup (map fst (chunk_files dir p))
  /\ (chunk_number p <> chunk_number q ->
      forall path, In path (map fst (chunk_files dir p)) ->
                   ~ In path (map fst (chunk_files dir q)))
  /\ (chunk_number p = chunk_number q ->
      map fst (chunk_files dir p) = map fst (chunk_files dir q)).
Proof.
  assert (Hstems : forall n m,
            chunk_file_name "properties" n ".json" <> chunk_file_name "payload" m ".bin"
            /\ chunk_file_name "properties" n ".json"
               <> chunk_file_name "metadata" m ".bin"
            /\ chunk_file_name "payload" n ".bin" <> chunk_file_name "metadata" m ".bin").
  { intros n m. unfold chunk_file_name. repeat split; cbn; discriminate. }
  split; [|split].
  - cbn [chunk_files map fst].
    destruct (Hstems (chunk_number p) (chunk_number p)) as (H1 & H2 & H3).
    repeat apply List.NoDup_cons; try apply List.NoDup_nil; cbn [In];
      intros H; repeat destruct H as [H|H]; try contradiction;
      apply os_path_join_inj in H; auto.
  - intros Hne path Hp Hq. cbn [chunk_files map fst In] in Hp, Hq.
    destruct (Hstems (chunk_number p) (chunk_number q)) as (H1 & H2 & H3).
    destruct (Hstems (chunk_number q) (chunk_number p)) as (H4 & H5 & H6).
    repeat destruct Hp as [Hp|Hp]; try contradiction;
      repeat destruct Hq as [Hq|Hq]; try contradiction;
      subst path; apply os_path_join_inj in Hq;
      first [apply chunk_file_name_inj in Hq; congruence | congruence].
  - intros Heq. cbn [chunk_files map fst]. rewrite Heq. reflexivity.
Qed.

(** *** The frame number as a float *)

Lemma binary_round_exact sx k :
  (Zpos (digits2_pos k) <= 53
   \/ exists m p, bounded prec emax m (Zpos p) = true /\ k = Pos.iter xO m p) ->
  exists m e,
    binary_round prec emax sx k 0 = S754_finite sx m e
    /\ bounded prec emax m e = true
    /\ stands_for k m e.
Proof.
  intros [Hd|(m & p & Hb & ->)].
  - unfold binary_round.
    assert (Hf : fexp prec emax (Zpos (digits2_pos k) + 0) = Zpos (digits2_pos k) - 53)
      by (unfold fexp, SpecFloat.emin, prec, emax; lia).
    rewrite Hf. unfold shl_align. rewrite Z.sub_0_r.
    destruct (Z.pos (digits2_pos k) - 53) as [|d|d] eqn:Hshift; [|lia|].
    + assert (Hb : bounded prec emax k 0 = true)
        by (unfold bounded, canonical_mantissa; rewrite Hf; reflexivity).
      exists k, 0. rewrite binary_round_aux_canonical by exact Hb.
      repeat split; [exact Hb|]. unfold stands_for. cbn. lia.
    + assert (Hb : bounded prec emax (shift_pos d k) (Zneg d) = true).
      { unfold bounded, canonical_mantissa, shift_pos.
        rewrite digits2_pos_iter_xO, Pos2Z.inj_add.
        apply andb_true_intro. split.
        - apply Z.eqb_eq. unfold fexp, SpecFloat.emin, prec, emax. lia.
        - apply Z.leb_le. unfold prec, emax. lia. }
      exists (shift_pos d k), (Zneg d).
      rewrite binary_round_aux_canonical by exact Hb.
      repeat split; [exact Hb|]. unfold stands_for, shift_pos.
      rewrite Zpos_iter_xO. reflexivity.
  - destruct (canonical_digits m (Zpos p) Hb) as (Hc & He & _).
    exists m, (Zpos p). unfold binary_round.
    rewrite digits2_pos_iter_xO, Z.add_0_r, Pos2Z.inj_add, Hc.
    unfold shl_align. rewrite Z.sub_0_r.
    rewrite binary_round_aux_shifted by exact Hb.
    repeat split; [exact Hb|]. unfold stands_for. cbn [Z.leb Z.compare].
    apply Zpos_iter_xO.
Qed.

(** X8.  The frame number of line 161 is the truncation of a float, so
    converting it back to a float for the product of line 163 is exact: it
    does not raise, the float stands for the very integer, and [int()] of it
    is the frame number again. *)
Theorem frame_number_converts_exactly x n :
  int_of_float x = Ok n ->
  exists f q,
    float_of_int n = Ok f
    /\ value f = Some q /\ Qeq q (inject_Z n)
    /\ int_of_float f = Ok n.
Proof.
  unfold int_of_float at 1.
  pose proof (Prim2SF_valid x) as Hv.
  destruct (Prim2SF x) as [s|s| |s m e] eqn:Hx; try discriminate.
  - intros [= <-]. exists 0%float, (inject_Z 0). repeat split; reflexivity.
  - intros [= <-]. cbn [valid_binary] in Hv.
    destruct (canonical_digits m e Hv) as (Hc & He & Hd).
    set (a := if 0 <=? e then Z.pos m * 2 ^ e else Z.pos m `div` 2 ^ (- e)).
    assert (Hcase : a = 0 \/ exists k, a = Zpos k /\
               (Zpos (digits2_pos k) <= 53
                \/ exists m' p, bounded prec emax m' (Zpos p) = true
                               /\ k = Pos.iter xO m' p)).
    { subst a. destruct (0 <=? e) eqn:Hsign.
      - apply Z.leb_le in Hsign. right. destruct e as [|p|p]; [| |lia].
        + exists m. split; [lia|]. left. exact Hd.
        + exists (Pos.iter xO m p). split; [rewrite Zpos_iter_xO; reflexivity|].
          right. eauto.
      - apply Z.leb_gt in Hsign.
        assert (0 < 2 ^ (- e)) by (apply Z.pow_pos_nonneg; lia).
        assert (0 <= Z.pos m `div` 2 ^ (- e) <= Zpos m).
        { split; [apply Z.div_pos; lia|].
          apply Z.div_le_upper_bound; [lia|]. nia. }
        destruct (Z.pos m `div` 2 ^ (- e)) as [|k|k]; [left; reflexivity| |lia].
        right. exists k. split; [reflexivity|]. left.
        pose proof (digits2_pos_le k m). lia. }
    clearbody a. destruct Hcase as [->|(k & -> & Hk)].
    + exists 0%float, (inject_Z 0). destruct s; repeat split; reflexivity.
    + destruct (binary_round_exact s k Hk) as (m' & e' & Hround & Hb & Hstands).
      exists (SF2Prim (S754_finite s m' e')).
      assert (Hf : Prim2SF (SF2Prim (S754_finite s m' e')) = S754_finite s m' e')
        by (apply Prim2SF_SF2Prim; exact Hb).
      unfold value, int_of_float, float_of_int. rewrite Hf.
      eexists. split; [|split; [reflexivity|split]].
      * destruct s; [change (- Z.pos k) with (Z.neg k)|];
          cbn [binary_normalize]; rewrite Hround; reflexivity.
      * unfold stands_for in Hstands. destruct (0 <=? e') eqn:Hsign.
        -- unfold Qeq. cbn [Qnum Qden inject_Z].
           destruct s; [change (- Z.pos k) with (Z.neg k)|]; lia.
        -- apply Z.leb_gt in Hsign.
           assert (Hpow : 0 < 2 ^ (- e')) by (apply Z.pow_pos_nonneg; lia).
           unfold Qeq. cbn [Qnum Qden inject_Z]. rewrite Z2Pos.id by exact Hpow.
           destruct s; [change (- Z.pos k) with (Z.neg k)|]; lia.
      * unfold stands_for in Hstands. f_equal. destruct (0 <=? e') eqn:Hsign.
        -- rewrite <- Hstands. reflexivity.
        -- apply Z.leb_gt in Hsign.
           assert (Hpow : 0 < 2 ^ (- e')) by (apply Z.pow_pos_nonneg; lia).
           rewrite <- Hstands, Z.div_mul by lia. reflexivity.
Qed.

(** ** The further properties on the sample runs *)


Lemma chunk_retrieved_when_ready_witness :
  out_events chunk_run
  = firstn 15 (out_events chunk_run)
    ++ EvExtractChannels (sample_frame 30 2 2) CHUNKREADY
    :: skipn 16 (out_events chunk_run)
  /\ exists chunkData rest,
       skipn 16 (out_events chunk_run)
       = EvGetChunkData chunkData :: gotChunkData_events (Some "out") chunkData ++ rest
       /\ goes_on (vf_number (fr_video (sample_frame 30 2 2))) rest.
Proof.
  split; [vm_compute; reflexivity|].
  apply (chunk_retrieved_when_ready
           (E := Scripted COLLECTING true [COLLECTING; CHUNKREADY; COLLECTING]
                          [Some sample_chunk; Some sample_chunk])
           (video_of 30 [1%float; 2%float; 3%float]) (faces_for [1; 2; 3])
           false [] "clip.mp4" "faces.json" "study.dat" (Some "out")
           (firstn 15 (out_events chunk_run)) (sample_frame 30 2 2) CHUNKREADY
           (skipn 16 (out_events chunk_run))).
  vm_compute. reflexivity.
Defined.

Lemma overlay_every_tenth_frame_witness :
  out_events q_run
  = firstn 11 (out_events q_run)
    ++ EvExtractChannels (sample_frame 30 10 10) COLLECTING
    :: skipn 12 (out_events q_run)
  /\ exists total,
       int_of_float (CAP_PROP_FRAME_COUNT (video_of 30 [10%float; 11%float])) = Ok total
       /\ overlay_shown (skipn 12 (out_events q_run))
          = if (vf_number (fr_video (sample_frame 30 10 10)) mod 10 =? 0)
               && negb (CollectorState_eqb COLLECTING COMPLETED)
            then Some (os_path_basename "clip.mp4",
                       vf_number (fr_video (sample_frame 30 10 10)), total)
            else None.
Proof.
  split; [vm_compute; reflexivity|].
  apply (overlay_every_tenth_frame
           (E := Scripted COLLECTING true [] [])
           (video_of 30 [10%float; 11%float]) (faces_for [10; 11])
           false [113] "clip.mp4" "faces.json" "study.dat" None
           (firstn 11 (out_events q_run)) (sample_frame 30 10 10) COLLECTING
           (skipn 12 (out_events q_run))).
  vm_compute. reflexivity.
Defined.

Lemma exit_only_at_startup_witness :
  out_res study_failed_run = Raise (SystemExit 1)
  /\ out_world study_failed_run
     = {| collector := createCollector (Scripted COLLECTING false [] []); keys := [] |}
  /\ Forall (fun ev => exists m, ev = EvPrint m) (out_events study_failed_run).
Proof.
  split; [vm_compute; reflexivity|].
  apply (proj2 (exit_only_at_startup
                  (E := Scripted COLLECTING false [] [])
                  (video_of 30 [1%float]) (faces_for [1])
                  false [] "clip.mp4" "faces.json" "study.dat" None) 1).
  vm_compute. reflexivity.
Defined.

Lemma zero_division_means_zero_rate_witness :
  out_res closed_run = Raise ZeroDivisionError
  /\ PrimFloat.eqb (CAP_PROP_FPS (video_of 0 [])) 0 = true
  /\ out_events closed_run = opening "clip.mp4" "study.dat".
Proof.
  split; [vm_compute; reflexivity|].
  apply (zero_division_means_zero_rate
           (E := Scripted COLLECTING true [] [])
           (video_of 0 []) (faces_for [])
           false [] "clip.mp4" "faces.json" "study.dat" None).
  vm_compute. reflexivity.
Defined.


Lemma three_ways_to_return_witness :
  out_res chunk_run = Ok tt
  /\ ((exists chunkData,
         (EvRead None :: EvGetChunkData chunkData
            :: gotChunkData_events (Some "out") chunkData ++ closing true)
         `suffix_of` out_events chunk_run)
      \/ (exists frame chunkData,
            (EvExtractChannels frame COMPLETED :: EvGetChunkData chunkData
               :: gotChunkData_events (Some "out") chunkData
               ++ EvPrint (MsgCompletedAt (vf_number (fr_video frame)))
               :: closing true)
            `suffix_of` out_events chunk_run)
      \/ (exists key,
            Z.land key 255 = 113
            /\ (EvWaitKey key :: closing false) `suffix_of` out_events chunk_run)).
Proof.
  split; [vm_compute; reflexivity|].
  apply (three_ways_to_return
           (E := Scripted COLLECTING true [COLLECTING; CHUNKREADY; COLLECTING]
                          [Some sample_chunk; Some sample_chunk])
           (video_of 30 [1%float; 2%float; 3%float]) (faces_for [1; 2; 3])
           false [] "clip.mp4" "faces.json" "study.dat" (Some "out")).
  vm_compute. reflexivity.
Defined.

Lemma chunk_files_collide_only_on_chunk_number_witness :
  chunk_number sample_chunk <> chunk_number next_chunk
  /\ forall path,
       In path (map fst (chunk_files "out" sample_chunk)) ->
       ~ In path (map fst (chunk_files "out" next_chunk)).
Proof.
  assert (Hne : chunk_number sample_chunk <> chunk_number next_chunk)
    by (vm_compute; discriminate).
  split; [exact Hne|].
  apply (proj1 (proj2 (chunk_files_collide_only_on_chunk_number
                         "out" sample_chunk next_chunk)) Hne).
Defined.



Lemma nan_frame_rate_raises_ValueError_witness :
  nan_run
  = mkOut (opening "clip.mp4" "study.dat")
          {| collector := createCollector (Scripted COLLECTING true [] []); keys := [] |}
          (Raise ValueError).
Proof.
  apply (nan_frame_rate_raises_ValueError
           (E := Scripted COLLECTING true [] [])
           (video_of nan []) (faces_for [])
           false [] "clip.mp4" "faces.json" "study.dat" None 0).
  - reflexivity.
  - discriminate.
  - vm_compute. reflexivity.
  - vm_compute. reflexivity.
Defined.


Lemma frame_number_converts_exactly_witness :
  int_of_float 2.5 = Ok 2
  /\ exists f q,
       float_of_int 2 = Ok f
       /\ value f = Some q /\ Qeq q (inject_Z 2)
       /\ int_of_float f = Ok 2.
Proof.
  assert (H : int_of_float 2.5 = Ok 2) by (vm_compute; reflexivity).
  split; [exact H|]. apply (frame_number_converts_exactly 2.5 2 H).
Defined.
